(** * A shallow embedding of the Tetris rules engine of [game/tetris.py]

    The engine's pure core (shape catalogue, pieces, board, line clearing,
    bag randomizer, scoring, lock-and-advance, the keyboard handler) is
    rendered as Rocq functions.  Python integers are [Z]; Python lists are
    lists, indexed the way Python indexes them (negative indices count from
    the end, anything else out of range raises [IndexError]); the [SHAPES]
    dictionary is an association list, because its key order is what
    [SHAPE_ORDER] is made of; exceptions are the [Raise] branch of a small
    error monad.  Boards are values; module [Store] keeps the rows as
    objects on a heap, to show that nothing is lost by that.  The random
    generator is a parameter.  Drawing to the screen and timers are left
    out. *)

From stdpp Require Import base tactics option list numbers strings gmap.

Local Open Scope string_scope.
Local Open Scope list_scope.
Local Open Scope Z_scope.

(** ** Exceptions *)

Inductive exn : Set :=
| KeyError
| IndexError
| ZeroDivisionError.

Inductive result (A : Type) : Type :=
| Ok (a : A)
| Raise (e : exn).

Arguments Ok {A} a.
Arguments Raise {A} e.

Definition bind {A B : Type} (m : result A) (k : A -> result B) : result B :=
  match m with
  | Ok a => k a
  | Raise e => Raise e
  end.

Notation "'let*' x ':=' m 'in' k" := (bind m (fun x => k))
  (at level 10, x name, m at level 100, k at level 200).

(** ** Python sequences and dictionaries *)

Module Py.

(** The position a Python index denotes in a sequence of [len] items. *)
Definition index (len : nat) (i : Z) : result nat :=
  if 0 <=? i
  then if i <? Z.of_nat len then Ok (Z.to_nat i) else Raise IndexError
  else if - Z.of_nat len <=? i then Ok (Z.to_nat (i + Z.of_nat len))
       else Raise IndexError.

(** [l[i]] *)
Definition getitem {A : Type} (l : list A) (i : Z) : result A :=
  let* n := index (length l) i in
  match l !! n with
  | Some a => Ok a
  | None => Raise IndexError
  end.

(** [l[i] = a] *)
Definition setitem {A : Type} (l : list A) (i : Z) (a : A) : result (list A) :=
  let* n := index (length l) i in Ok (<[n := a]> l).

(** [d[k]] for a dictionary kept in insertion order. *)
Fixpoint dict_get {V : Type} (d : list (string * V)) (k : string) : result V :=
  match d with
  | [] => Raise KeyError
  | (k', v) :: d' => if String.eqb k' k then Ok v else dict_get d' k
  end.

(** [list(d.keys())] *)
Definition keys {V : Type} (d : list (string * V)) : list string := d.*1.

(** [a % b] *)
Definition mod_ (a b : Z) : result Z :=
  if b =? 0 then Raise ZeroDivisionError else Ok (a mod b).

End Py.

(** ** Constants and the shape catalogue *)

Definition GRID_WIDTH : Z := 10.
Definition GRID_HEIGHT : Z := 20.

Definition SHAPES : list (string * list (list (Z * Z))) :=
  [ ("I", [ [(0, 1); (1, 1); (2, 1); (3, 1)];
            [(2, 0); (2, 1); (2, 2); (2, 3)] ]);
    ("J", [ [(0, 0); (0, 1); (1, 1); (2, 1)];
            [(1, 0); (2, 0); (1, 1); (1, 2)];
            [(0, 1); (1, 1); (2, 1); (2, 2)];
            [(1, 0); (1, 1); (0, 2); (1, 2)] ]);
    ("L", [ [(2, 0); (0, 1); (1, 1); (2, 1)];
            [(1, 0); (1, 1); (1, 2); (2, 2)];
            [(0, 1); (1, 1); (2, 1); (0, 2)];
            [(0, 0); (1, 0); (1, 1); (1, 2)] ]);
    ("O", [ [(1, 0); (2, 0); (1, 1); (2, 1)] ]);
    ("S", [ [(1, 0); (2, 0); (0, 1); (1, 1)];
            [(1, 0); (1, 1); (2, 1); (2, 2)] ]);
    ("T", [ [(1, 0); (0, 1); (1, 1); (2, 1)];
            [(1, 0); (1, 1); (2, 1); (1, 2)];
            [(0, 1); (1, 1); (2, 1); (1, 2)];
            [(1, 0); (0, 1); (1, 1); (1, 2)] ]);
    ("Z", [ [(0, 0); (1, 0); (1, 1); (2, 1)];
            [(2, 0); (1, 1); (2, 1); (1, 2)] ]) ].

Definition SHAPE_ORDER : list string := Py.keys SHAPES.

(** ** Pieces *)

Record Tetromino : Set := mkTetromino {
  name : string;
  rotation : Z;
  position : Z * Z
}.

(** [Tetromino(name)]: the dataclass defaults, rotation 0 and anchor
    [(GRID_WIDTH // 2 - 2, 0)].  The constructor checks nothing. *)
Definition new_piece (nm : string) : Tetromino :=
  mkTetromino nm 0 (GRID_WIDTH / 2 - 2, 0).

Definition cells (p : Tetromino) : result (list (Z * Z)) :=
  let* rotations := Py.dict_get SHAPES (name p) in
  let* offsets := Py.getitem rotations (rotation p) in
  let '(px, py) := position p in
  Ok (map (fun o : Z * Z => (px + o.1, py + o.2)) offsets).

Definition moved (p : Tetromino) (dx dy : Z) : Tetromino :=
  let '(px, py) := position p in
  mkTetromino (name p) (rotation p) (px + dx, py + dy).

Definition rotated (p : Tetromino) (direction : Z) : result Tetromino :=
  let* rotations := Py.dict_get SHAPES (name p) in
  let* r := Py.mod_ (rotation p + direction) (Z.of_nat (length rotations)) in
  Ok (mkTetromino (name p) r (position p)).

(** ** The board *)

Abbreviation cell := (option string) (only parsing).
Abbreviation row := (list (option string)) (only parsing).
Abbreviation board := (list (list (option string))) (only parsing).

Definition empty_row : row := replicate (Z.to_nat GRID_WIDTH) None.

Definition create_board : board := replicate (Z.to_nat GRID_HEIGHT) empty_row.

(** The body of the [for x, y in piece.cells()] loop of
    [is_valid_position], with its two early returns. *)
Fixpoint is_valid_cells (b : board) (cs : list (Z * Z)) : result bool :=
  match cs with
  | [] => Ok true
  | (x, y) :: rest =>
      if (x <? 0) || (x >=? GRID_WIDTH) || (y >=? GRID_HEIGHT) then Ok false
      else if y >=? 0 then
        let* r := Py.getitem b y in
        let* c := Py.getitem r x in
        if bool_decide (c ≠ None) then Ok false else is_valid_cells b rest
      else is_valid_cells b rest
  end.

Definition is_valid_position (b : board) (p : Tetromino) : result bool :=
  let* cs := cells p in is_valid_cells b cs.

(** The loop of [lock_piece].  [board[y][x] = piece.name] reads the row
    object [board[y]] and writes into it; rows are values here, so the
    written row is put back in its place ([Store.lock_cells] below writes
    into the object instead). *)
Fixpoint lock_cells (b : board) (nm : string) (cs : list (Z * Z)) : result board :=
  match cs with
  | [] => Ok b
  | (x, y) :: rest =>
      if (0 <=? y) && (y <? GRID_HEIGHT) then
        let* r := Py.getitem b y in
        let* r' := Py.setitem r x (Some nm) in
        let* b' := Py.setitem b y r' in
        lock_cells b' nm rest
      else lock_cells b nm rest
  end.

Definition lock_piece (b : board) (p : Tetromino) : result board :=
  let* cs := cells p in lock_cells b (name p) cs.

(** The [while len(remaining_rows) < GRID_HEIGHT] loop of [clear_lines]:
    one empty row goes in at index 0 per iteration.  Each iteration makes
    the list one longer, so [GRID_HEIGHT] iterations are always enough
    ([refill_rows_enough] below); the loop is run with that many. *)
Fixpoint refill_rows (fuel : nat) (remaining_rows : board) : board :=
  match fuel with
  | O => remaining_rows
  | S fuel' =>
      if Z.of_nat (length remaining_rows) <? GRID_HEIGHT
      then refill_rows fuel' (empty_row :: remaining_rows)
      else remaining_rows
  end.

(** [clear_lines] returns the board it leaves behind and the count. *)
Definition clear_lines (b : board) : board * Z :=
  let remaining_rows := filter (fun r : row => None ∈ r) b in
  let cleared := GRID_HEIGHT - Z.of_nat (length remaining_rows) in
  (refill_rows (Z.to_nat GRID_HEIGHT) remaining_rows, cleared).

(** [hard_drop]'s [while True] loop.  [None] means the fuel ran out before
    the loop returned; an exception raised by [is_valid_position] leaves the
    loop as it does in Python. *)
Fixpoint hard_drop (fuel : nat) (b : board) (piece : Tetromino)
  : option (result Tetromino) :=
  match fuel with
  | O => None
  | S fuel' =>
      let candidate := moved piece 0 1 in
      match is_valid_position b candidate with
      | Raise e => Some (Raise e)
      | Ok false => Some (Ok piece)
      | Ok true => hard_drop fuel' b candidate
      end
  end.

(** ** Scoring and levels *)

Definition calculate_drop_interval (level : Z) : Z :=
  Z.max 100 (700 - (level - 1) * 60).

Definition scoring_table : gmap Z Z :=
  <[0 := 0]> (<[1 := 100]> (<[2 := 300]> (<[3 := 500]> (<[4 := 800]> ∅)))).

Definition update_level_and_score (score lines_cleared cleared_now : Z)
  : Z * Z * Z :=
  let score := score + default 0 (scoring_table !! cleared_now) in
  let lines_cleared := lines_cleared + cleared_now in
  let level := Z.max 1 (lines_cleared / 10 + 1) in
  (score, lines_cleared, level).

(** ** The bag randomizer, lock-and-advance and the event handler

    [random.Random] is the Python library's, not this program's: its state
    is a type [Rng] and [shuffle] is its method, of which only the contract
    is used, that the shuffled list is a rearrangement of the given one. *)

Inductive key : Set :=
| K_ESCAPE | K_LEFT | K_RIGHT | K_DOWN | K_UP | K_SPACE | K_other.

Inductive event : Set :=
| QUIT
| DROP_EVENT
| KEYDOWN (k : key)
| other_event.

Section Session.

Variable Rng : Type.
Variable shuffle : Rng -> list string -> list string * Rng.
(** [next_bag]: the generator is drained at once by its only caller, so it
    is the shuffled copy of [SHAPE_ORDER] and the generator's new state. *)
Definition next_bag (random_generator : Rng) : list string * Rng :=
  shuffle random_generator SHAPE_ORDER.

(** [spawn_piece] returns the kind drawn, and the queue and generator as
    the call leaves them. *)
Definition spawn_piece (queue : list string) (rng : Rng)
  : result (string * list string * Rng) :=
  let '(queue, rng) :=
    match queue with
    | [] => let '(bag, rng') := next_bag rng in (queue ++ bag, rng')
    | _ :: _ => (queue, rng)
    end in
  match queue with
  | [] => Raise IndexError
  | front :: queue' => Ok (front, queue', rng)
  end.

(** What [settle_piece] returns (the 7-tuple) together with the objects it
    mutates. *)
Record settled : Type := mkSettled {
  s_board : board;
  s_queue : list string;
  s_rng : Rng;
  s_current_piece : Tetromino;
  s_next_piece_name : string;
  s_score : Z;
  s_lines_cleared : Z;
  s_level : Z;
  s_drop_interval : Z;
  s_game_over : bool
}.

Definition settle_piece (b : board) (current_piece : Tetromino)
    (next_piece_name : string) (queue : list string) (rng : Rng)
    (score lines_cleared level : Z) : result settled :=
  let* b := lock_piece b current_piece in
  let '(b, cleared) := clear_lines b in
  let '(score, lines_cleared, level) :=
    update_level_and_score score lines_cleared cleared in
  let drop_interval := calculate_drop_interval level in
  let current_piece := new_piece next_piece_name in
  let* drawn := spawn_piece queue rng in
  let '(next_piece_name, queue, rng) := drawn in
  let* valid := is_valid_position b current_piece in
  Ok (mkSettled b queue rng current_piece next_piece_name
        score lines_cleared level drop_interval (negb valid)).

(** The variables of [main] that the engine reads and writes. *)
Record game : Type := mkGame {
  g_board : board;
  g_queue : list string;
  g_rng : Rng;
  g_current_piece : Tetromino;
  g_next_piece_name : string;
  g_score : Z;
  g_lines_cleared : Z;
  g_level : Z;
  g_drop_interval : Z;
  g_running : bool
}.

Definition set_current_piece (g : game) (p : Tetromino) : game :=
  mkGame (g_board g) (g_queue g) (g_rng g) p (g_next_piece_name g)
    (g_score g) (g_lines_cleared g) (g_level g) (g_drop_interval g)
    (g_running g).

Definition set_running (g : game) (r : bool) : game :=
  mkGame (g_board g) (g_queue g) (g_rng g) (g_current_piece g)
    (g_next_piece_name g) (g_score g) (g_lines_cleared g) (g_level g)
    (g_drop_interval g) r.

(** The assignments after a call of [settle_piece] in [main], up to the
    [break]: the second component says whether the event loop breaks. *)
Definition after_settle (g : game) (s : settled) : game * bool :=
  (mkGame (s_board s) (s_queue s) (s_rng s) (s_current_piece s)
     (s_next_piece_name s) (s_score s) (s_lines_cleared s) (s_level s)
     (s_drop_interval s)
     (if s_game_over s then false else g_running g),
   s_game_over s).

Definition settle_game (g : game) (piece : Tetromino) : result (game * bool) :=
  let* s := settle_piece (g_board g) piece (g_next_piece_name g)
              (g_queue g) (g_rng g) (g_score g) (g_lines_cleared g)
              (g_level g) in
  Ok (after_settle g s).

(** [moved = current_piece.moved(dx, dy)] followed by
    [if is_valid_position(board, moved): current_piece = moved]. *)
Definition try_move (g : game) (dx dy : Z) : result (game * bool) :=
  let moved_piece := moved (g_current_piece g) dx dy in
  let* valid := is_valid_position (g_board g) moved_piece in
  Ok (if valid then set_current_piece g moved_piece else g, false).

(** The wall-kick loop [for dx in (-1, 1, -2, 2)] with its [break]. *)
Fixpoint wall_kicks (b : board) (rotated_piece current_piece : Tetromino)
    (dxs : list Z) : result Tetromino :=
  match dxs with
  | [] => Ok current_piece
  | dx :: dxs' =>
      let kicked := moved rotated_piece dx 0 in
      let* valid := is_valid_position b kicked in
      if valid then Ok kicked
      else wall_kicks b rotated_piece current_piece dxs'
  end.

Definition KICKS : list Z := [-1; 1; -2; 2].

(** One iteration of [for event in pygame.event.get()] in [main].  The
    result is the new values of the variables and whether the loop breaks;
    [fuel] bounds the loop of [hard_drop]. *)
Definition handle_event (fuel : nat) (g : game) (ev : event)
  : option (result (game * bool)) :=
  match ev with
  | QUIT => Some (Ok (set_running g false, false))
  | DROP_EVENT =>
      let moved_piece := moved (g_current_piece g) 0 1 in
      Some (let* valid := is_valid_position (g_board g) moved_piece in
            if valid then Ok (set_current_piece g moved_piece, false)
            else settle_game g (g_current_piece g))
  | KEYDOWN K_ESCAPE => Some (Ok (set_running g false, false))
  | KEYDOWN K_LEFT => Some (try_move g (-1) 0)
  | KEYDOWN K_RIGHT => Some (try_move g 1 0)
  | KEYDOWN K_DOWN => Some (try_move g 0 1)
  | KEYDOWN K_UP =>
      Some (let* rotated_piece := rotated (g_current_piece g) 1 in
            let* valid := is_valid_position (g_board g) rotated_piece in
            if valid then Ok (set_current_piece g rotated_piece, false)
            else
              let* p := wall_kicks (g_board g) rotated_piece
                          (g_current_piece g) KICKS in
              Ok (set_current_piece g p, false))
  | KEYDOWN K_SPACE =>
      match hard_drop fuel (g_board g) (g_current_piece g) with
      | None => None
      | Some (Raise e) => Some (Raise e)
      | Some (Ok dropped) => Some (settle_game g dropped)
      end
  | KEYDOWN K_other => Some (Ok (g, false))
  | other_event => Some (Ok (g, false))
  end.

(** The start of [main]: an empty board and queue, two draws, zero score. *)
Definition init_game (rng : Rng) : result game :=
  let b := create_board in
  let queue : list string := [] in
  let* d := spawn_piece queue rng in
  let '(k, queue, rng) := d in
  let current_piece := new_piece k in
  let* d := spawn_piece queue rng in
  let '(next_piece_name, queue, rng) := d in
  let score := 0 in
  let lines_cleared := 0 in
  let level := 1 in
  let drop_interval := calculate_drop_interval level in
  Ok (mkGame b queue rng current_piece next_piece_name score lines_cleared
        level drop_interval true).

(** [n] successive calls of [spawn_piece] on the same queue and generator:
    the kinds drawn, in order, and the queue and generator at the end. *)
Fixpoint draws (n : nat) (queue : list string) (rng : Rng)
  : result (list string * list string * Rng) :=
  match n with
  | O => Ok ([], queue, rng)
  | S n' =>
      let* d := spawn_piece queue rng in
      let '(k, queue, rng) := d in
      let* ds := draws n' queue rng in
      let '(ks, queue, rng) := ds in
      Ok (k :: ks, queue, rng)
  end.

End Session.

Arguments next_bag {Rng} shuffle random_generator.
Arguments spawn_piece {Rng} shuffle queue rng.
Arguments mkSettled {Rng}.
Arguments s_board {Rng} s.
Arguments s_queue {Rng} s.
Arguments s_rng {Rng} s.
Arguments s_current_piece {Rng} s.
Arguments s_next_piece_name {Rng} s.
Arguments s_score {Rng} s.
Arguments s_lines_cleared {Rng} s.
Arguments s_level {Rng} s.
Arguments s_drop_interval {Rng} s.
Arguments s_game_over {Rng} s.
Arguments settle_piece {Rng} shuffle b current_piece next_piece_name queue rng
  score lines_cleared level.
Arguments mkGame {Rng}.
Arguments g_board {Rng} g.
Arguments g_queue {Rng} g.
Arguments g_rng {Rng} g.
Arguments g_current_piece {Rng} g.
Arguments g_next_piece_name {Rng} g.
Arguments g_score {Rng} g.
Arguments g_lines_cleared {Rng} g.
Arguments g_level {Rng} g.
Arguments g_drop_interval {Rng} g.
Arguments g_running {Rng} g.
Arguments set_current_piece {Rng} g p.
Arguments set_running {Rng} g r.
Arguments after_settle {Rng} g s.
Arguments settle_game {Rng} shuffle g piece.
Arguments try_move {Rng} g dx dy.
Arguments handle_event {Rng} shuffle fuel g ev.
Arguments init_game {Rng} shuffle rng.
Arguments draws {Rng} shuffle n queue rng.

(** ** Drawing

    What [draw_board] and [draw_piece] ask pygame to draw, as the list of
    the calls of [pygame.draw.rect] they make on their surface, in order.
    A rectangle is [pygame.Rect(left, top, width, height)] or the result of
    the method [inflate] on one; what pygame does with them is not
    modelled. *)

Definition BLOCK_SIZE : Z := 32.
Definition PLAY_WIDTH : Z := GRID_WIDTH * BLOCK_SIZE.
Definition PLAY_HEIGHT : Z := GRID_HEIGHT * BLOCK_SIZE.

Definition COLORS : list (string * (Z * Z * Z)) :=
  [ ("I", (0, 240, 240));
    ("J", (0, 0, 240));
    ("L", (240, 160, 0));
    ("O", (240, 240, 0));
    ("S", (0, 240, 0));
    ("T", (160, 0, 240));
    ("Z", (240, 0, 0)) ].

Definition GRID_COLOR : Z * Z * Z := (45, 45, 60).

Inductive rect : Set :=
| Rect (left top width height : Z)
| Inflate (r : rect) (x y : Z).

(** [pygame.draw.rect(surface, color, rect, width)] *)
Inductive draw : Set :=
| DrawRect (color : Z * Z * Z) (r : rect) (width : Z).

(** [color] is a tuple of three numbers or [None]; [if color] holds for
    every such tuple. *)
Definition draw_cell (x y : Z) (color : option (Z * Z * Z)) : list draw :=
  let r := Rect (x * BLOCK_SIZE) (y * BLOCK_SIZE) BLOCK_SIZE BLOCK_SIZE in
  DrawRect GRID_COLOR r 1 ::
  match color with
  | Some c => [DrawRect c (Inflate r (-2) (-2)) 0]
  | None => []
  end.

(** [COLORS[cell] if cell else None]: [None] and the empty string are
    false. *)
Definition cell_color (c : cell) : result (option (Z * Z * Z)) :=
  match c with
  | None => Ok None
  | Some k =>
      if String.eqb k "" then Ok None
      else let* col := Py.dict_get COLORS k in Ok (Some col)
  end.

(** [for x, cell in enumerate(row)], from column [x] on. *)
Fixpoint draw_row (y x : Z) (r : row) : result (list draw) :=
  match r with
  | [] => Ok []
  | c :: r' =>
      let* col := cell_color c in
      let* ds := draw_row y (x + 1) r' in
      Ok (draw_cell x y col ++ ds)
  end.

(** [for y, row in enumerate(board)], from row [y] on. *)
Fixpoint draw_rows (y : Z) (b : board) : result (list draw) :=
  match b with
  | [] => Ok []
  | r :: b' =>
      let* ds := draw_row y 0 r in
      let* ds' := draw_rows (y + 1) b' in
      Ok (ds ++ ds')
  end.

Definition draw_board (b : board) : result (list draw) := draw_rows 0 b.

(** The loop of [draw_piece]. *)
Fixpoint draw_piece_cells (nm : string) (cs : list (Z * Z))
  : result (list draw) :=
  match cs with
  | [] => Ok []
  | (x, y) :: rest =>
      if y >=? 0 then
        let* col := Py.dict_get COLORS nm in
        let* ds := draw_piece_cells nm rest in
        Ok (draw_cell x y (Some col) ++ ds)
      else draw_piece_cells nm rest
  end.

Definition draw_piece (p : Tetromino) : result (list draw) :=
  let* cs := cells p in draw_piece_cells (name p) cs.

(** The loop of the preview in [render]:
    [for x, y in SHAPES[next_piece][0]:
         draw_cell(preview_surface, x, y, COLORS[next_piece])]. *)
Fixpoint draw_preview_cells (next_piece : string) (cs : list (Z * Z))
  : result (list draw) :=
  match cs with
  | [] => Ok []
  | (x, y) :: rest =>
      let* col := Py.dict_get COLORS next_piece in
      let* ds := draw_preview_cells next_piece rest in
      Ok (draw_cell x y (Some col) ++ ds)
  end.

Definition draw_preview (next_piece : string) : result (list draw) :=
  let* rotations := Py.dict_get SHAPES next_piece in
  let* offsets := Py.getitem rotations 0 in
  draw_preview_cells next_piece offsets.

(** The calls of [pygame.draw.rect] that [render] makes, on the play
    surface and on the preview surface, a square of [BLOCK_SIZE * 4]
    pixels.  The fills, the text of the panel and the flip of the display
    are calls of pygame alone and are not modelled. *)
Definition render (b : board) (piece : Tetromino) (next_piece : string)
  : result (list draw * list draw) :=
  let* ds := draw_board b in
  let* ds' := draw_piece piece in
  let* preview := draw_preview next_piece in
  Ok (ds ++ ds', preview).

(** ** The event loop of [main]

    [for event in pygame.event.get()]: the events of one frame are handled
    in order, and the loop is left at once when a piece has settled with the
    game over. *)
Fixpoint process_events {Rng : Type}
    (shuffle : Rng -> list string -> list string * Rng)
    (fuel : nat) (g : game Rng) (events : list event)
  : option (result (game Rng)) :=
  match events with
  | [] => Some (Ok g)
  | ev :: events' =>
      match handle_event shuffle fuel g ev with
      | None => None
      | Some (Raise e) => Some (Raise e)
      | Some (Ok (g', true)) => Some (Ok g')
      | Some (Ok (g', false)) => process_events shuffle fuel g' events'
      end
  end.

(** [while running]: one list of events per frame, as [pygame.event.get()]
    returns them.  The result is the state when [running] is found false,
    or after the last of the given frames. *)
Fixpoint main_loop {Rng : Type}
    (shuffle : Rng -> list string -> list string * Rng)
    (fuel : nat) (g : game Rng) (frames : list (list event))
  : option (result (game Rng)) :=
  match frames with
  | [] => Some (Ok g)
  | events :: frames' =>
      if g_running g then
        match process_events shuffle fuel g events with
        | None => None
        | Some (Raise e) => Some (Raise e)
        | Some (Ok g') => main_loop shuffle fuel g' frames'
        end
      else Some (Ok g)
  end.

(** ** Row objects

    In Python a board is a list of references to row objects, and
    [board[y][x] = name] writes into the object that [board[y]] refers to.
    [Store] is that reading of the three functions that build or change a
    board: rows live in a heap with an allocation counter and a board is the
    list of the addresses of its rows.  The functions on values above agree
    with these whenever the rows of the board are distinct objects, and
    [create_board] and [clear_lines] only ever make such boards (lemmas
    [store_...] below). *)

Module Store.

Record heap : Type := mkHeap {
  rows : nat -> list (option string);
  next : nat
}.

Definition update (f : nat -> list (option string)) (a : nat) (r : row)
  : nat -> list (option string) :=
  fun b => if decide (a = b) then r else f b.

(** A new row object. *)
Definition alloc (h : heap) (r : row) : nat * heap :=
  (next h, mkHeap (update (rows h) (next h) r) (S (next h))).

(** The row object at [a] becomes [r]. *)
Definition write (h : heap) (a : nat) (r : row) : heap :=
  mkHeap (update (rows h) a r) (next h).

(** The board, as a value, that a list of row addresses stands for. *)
Definition read (h : heap) (refs : list nat) : board := rows h <$> refs.

(** [[[None for _ in range(GRID_WIDTH)] for _ in range(n)]] *)
Fixpoint alloc_rows (n : nat) (h : heap) : list nat * heap :=
  match n with
  | O => ([], h)
  | S n' =>
      let '(a, h) := alloc h empty_row in
      let '(refs, h) := alloc_rows n' h in
      (a :: refs, h)
  end.

Definition create_board (h : heap) : list nat * heap :=
  alloc_rows (Z.to_nat GRID_HEIGHT) h.

Fixpoint lock_cells (h : heap) (refs : list nat) (nm : string)
    (cs : list (Z * Z)) : result heap :=
  match cs with
  | [] => Ok h
  | (x, y) :: rest =>
      if (0 <=? y) && (y <? GRID_HEIGHT) then
        let* a := Py.getitem refs y in
        let* r' := Py.setitem (rows h a) x (Some nm) in
        lock_cells (write h a r') refs nm rest
      else lock_cells h refs nm rest
  end.

Definition lock_piece (h : heap) (refs : list nat) (p : Tetromino)
  : result heap :=
  let* cs := cells p in lock_cells h refs (name p) cs.

Fixpoint refill_rows (fuel : nat) (h : heap) (remaining_rows : list nat)
  : list nat * heap :=
  match fuel with
  | O => (remaining_rows, h)
  | S fuel' =>
      if Z.of_nat (length remaining_rows) <? GRID_HEIGHT
      then let '(a, h) := alloc h empty_row in
           refill_rows fuel' h (a :: remaining_rows)
      else (remaining_rows, h)
  end.

(** The board's new list of rows, the heap, and the count. *)
Definition clear_lines (h : heap) (refs : list nat) : list nat * heap * Z :=
  let remaining_rows := filter (fun a : nat => None ∈ rows h a) refs in
  let cleared := GRID_HEIGHT - Z.of_nat (length remaining_rows) in
  (refill_rows (Z.to_nat GRID_HEIGHT) h remaining_rows, cleared).

(** Every address of the list is in use. *)
Definition allocated (h : heap) (refs : list nat) : Prop :=
  Forall (fun a : nat => (a < next h)%nat) refs.

End Store.

(** * Vocabulary of the specification

    Well-formedness of boards and pieces, the conditions the claims are
    stated with, and a concrete game and generator to run them on. *)

(** A board is [GRID_HEIGHT] rows of [GRID_WIDTH] cells. *)
Definition board_wf (b : board) : Prop :=
  length b = Z.to_nat GRID_HEIGHT /\
  Forall (fun r : row => length r = Z.to_nat GRID_WIDTH) b.

(** A cell holds nothing or one of the seven kinds. *)
Definition cell_ok (c : cell) : Prop :=
  match c with
  | None => True
  | Some k => k ∈ SHAPE_ORDER
  end.

Definition cells_ok (b : board) : Prop := Forall (Forall cell_ok) b.

(** [board[y][x]] for indices known to be inside the grid. *)
Definition board_at (b : board) (x y : Z) : option cell :=
  r ← b !! Z.to_nat y; r !! Z.to_nat x.

(** The condition of the specification on one occupied cell. *)
Definition cell_free (b : board) (c : Z * Z) : Prop :=
  0 <= c.1 < GRID_WIDTH /\ c.2 < GRID_HEIGHT /\
  (c.2 < 0 \/ board_at b c.1 c.2 = Some None).

Definition out_of_grid (c : Z * Z) : Prop :=
  c.1 < 0 \/ c.1 >= GRID_WIDTH \/ c.2 >= GRID_HEIGHT.

(** A row is full when it has no empty cell. *)
Definition full (r : row) : Prop := None ∉ r.

(** The score table in the words of the specification. *)
Definition score_delta_spec (cleared : Z) : Z :=
  if cleared =? 1 then 100
  else if cleared =? 2 then 300
  else if cleared =? 3 then 500
  else if cleared =? 4 then 800
  else 0.

(** Every rotation state has four cells inside a 4 by 4 box. *)
Definition state_ok (offsets : list (Z * Z)) : Prop :=
  length offsets = 4%nat /\
  Forall (fun o : Z * Z => 0 <= o.1 <= 3 /\ 0 <= o.2 <= 3) offsets.

(** Every kind has 1, 2 or 4 rotation states. *)
Definition rotations_ok (rotations : list (list (Z * Z))) : Prop :=
  (length rotations = 1 \/ length rotations = 2 \/ length rotations = 4)%nat /\
  Forall state_ok rotations.

(** A piece of a known kind whose rotation index is one of its kind's. *)
Definition piece_ok (p : Tetromino) : Prop :=
  exists rotations,
    Py.dict_get SHAPES (name p) = Ok rotations /\
    0 <= rotation p < Z.of_nat (length rotations).

(** A piece whose cells can be computed. *)
Definition has_cells (p : Tetromino) : Prop := exists cs, cells p = Ok cs.

(** [rotated] applied once per direction of the list, left to right. *)
Fixpoint rotate_all (p : Tetromino) (directions : list Z) : result Tetromino :=
  match directions with
  | [] => Ok p
  | d :: ds => let* p' := rotated p d in rotate_all p' ds
  end.

(** [n] bags in a row, and the generator after them. *)
Fixpoint bags {Rng : Type} (shuffle : Rng -> list string -> list string * Rng)
    (n : nat) (g : Rng) : list (list string) * Rng :=
  match n with
  | O => ([], g)
  | S n' =>
      let '(bag, g') := next_bag shuffle g in
      let '(bs, g'') := bags shuffle n' g' in
      (bag :: bs, g'')
  end.


(** A generator that "shuffles" by reversing, and counts its calls. *)
Definition reverse_shuffle (g : nat) (l : list string) : list string * nat :=
  (reverse l, S g).



(** The game [main] starts with when the generator reverses. *)
Definition demo_game : game nat :=
  mkGame create_board ["S"; "O"; "L"; "J"; "I"] 1%nat (new_piece "Z") "T"
    0 0 1 700 true.

(** The same game with an I piece standing upright against the right
    wall: turned clockwise it sticks out of the grid by one column. *)
Definition kick_game : game nat :=
  mkGame create_board ["S"; "O"; "L"; "J"; "I"] 1%nat
    (mkTetromino "I" 1 (7, 5)) "T" 0 0 1 700 true.

(** The game after the left key, and after the escape key. *)
Definition demo_game_left : game nat :=
  mkGame create_board ["S"; "O"; "L"; "J"; "I"] 1%nat
    (mkTetromino "Z" 0 (2, 0)) "T" 0 0 1 700 true.

Definition demo_game_escape : game nat :=
  mkGame create_board ["S"; "O"; "L"; "J"; "I"] 1%nat (new_piece "Z") "T"
    0 0 1 700 false.

(** A list of kinds. *)
Definition kinds_ok (ks : list string) : Prop :=
  Forall (fun k : string => k ∈ SHAPE_ORDER) ks.

(** What [main] keeps true of its variables from the start to the end of
    the game, the validity of the current piece apart: a well-formed board
    without a full row, kinds where kinds are expected, a piece that is not
    above its spawn row, and score, lines, level and interval in step. *)
Definition game_rest_ok {Rng : Type} (g : game Rng) : Prop :=
  board_wf (g_board g) /\ cells_ok (g_board g) /\
  Forall (fun r : row => ~ full r) (g_board g) /\
  name (g_current_piece g) ∈ SHAPE_ORDER /\
  0 <= (position (g_current_piece g)).2 /\
  g_next_piece_name g ∈ SHAPE_ORDER /\
  kinds_ok (g_queue g) /\
  0 <= g_score g /\ 0 <= g_lines_cleared g /\
  g_level g = Z.max 1 (g_lines_cleared g / 10 + 1) /\
  g_drop_interval g = calculate_drop_interval (g_level g).

(** The same while the game runs: the current piece is validly placed. *)
Definition game_inv {Rng : Type} (g : game Rng) : Prop :=
  game_rest_ok g /\
  is_valid_position (g_board g) (g_current_piece g) = Ok true.

(** The events that can lock a piece. *)
Definition locking_event (ev : event) : bool :=
  match ev with
  | DROP_EVENT | KEYDOWN K_SPACE => true
  | _ => false
  end.

(** Score, line total and level have not gone down from [g] to [g'], and
    [running] has not come back on. *)
Definition game_le {Rng : Type} (g g' : game Rng) : Prop :=
  g_score g <= g_score g' /\ g_lines_cleared g <= g_lines_cleared g' /\
  g_level g <= g_level g' /\
  (g_running g = false -> g_running g' = false).

(** The rectangle of a call, without the [inflate]s on it. *)
Fixpoint base_rect (r : rect) : rect :=
  match r with
  | Rect _ _ _ _ => r
  | Inflate r' _ _ => base_rect r'
  end.

(** A call draws the square of a cell of the grid, or that square
    inflated. *)
Definition draws_grid_square (d : draw) : Prop :=
  match d with
  | DrawRect _ r _ =>
      exists x y,
        0 <= x < GRID_WIDTH /\ 0 <= y < GRID_HEIGHT /\
        base_rect r =
          Rect (x * BLOCK_SIZE) (y * BLOCK_SIZE) BLOCK_SIZE BLOCK_SIZE /\
        0 <= x * BLOCK_SIZE /\ x * BLOCK_SIZE + BLOCK_SIZE <= PLAY_WIDTH /\
        0 <= y * BLOCK_SIZE /\ y * BLOCK_SIZE + BLOCK_SIZE <= PLAY_HEIGHT
  end.

(** A call draws one of the 4 by 4 squares of the preview surface, or that
    square inflated. *)
Definition draws_preview_square (d : draw) : Prop :=
  match d with
  | DrawRect _ r _ =>
      exists x y,
        0 <= x < 4 /\ 0 <= y < 4 /\
        base_rect r =
          Rect (x * BLOCK_SIZE) (y * BLOCK_SIZE) BLOCK_SIZE BLOCK_SIZE /\
        0 <= x * BLOCK_SIZE /\ x * BLOCK_SIZE + BLOCK_SIZE <= BLOCK_SIZE * 4 /\
        0 <= y * BLOCK_SIZE /\ y * BLOCK_SIZE + BLOCK_SIZE <= BLOCK_SIZE * 4
  end.

(** The cells of a row from column [x] on, and of a board from row [y]
    on, each with its column and row, as [enumerate] pairs them. *)
Fixpoint enumerate_row (y x : Z) (r : row) : list (Z * Z * cell) :=
  match r with
  | [] => []
  | c :: r' => (x, y, c) :: enumerate_row y (x + 1) r'
  end.

Fixpoint enumerate_board (y : Z) (b : board) : list (Z * Z * cell) :=
  match b with
  | [] => []
  | r :: b' => enumerate_row y 0 r ++ enumerate_board (y + 1) b'
  end.

(** The colour of a cell that holds a kind. *)
Definition kind_color (c : cell) : option (Z * Z * Z) :=
  match c with
  | None => None
  | Some k =>
      match Py.dict_get COLORS k with
      | Ok col => Some col
      | Raise _ => None
      end
  end.

(** A heap on which [create_board] has made one board, and the board. *)
Definition demo_heap : list nat * Store.heap :=
  Store.create_board (Store.mkHeap (fun _ => []) 0).

(** * Properties *)

(** ** Well-formed boards and pieces *)

Ltac zbool :=
  repeat match goal with
  | |- context [Z.geb ?a ?b] => rewrite (Z.geb_leb a b)
  | |- context [Z.ltb ?a ?b] => destruct (Z.ltb_spec a b)
  | |- context [Z.leb ?a ?b] => destruct (Z.leb_spec a b)
  | |- context [Z.eqb ?a ?b] => destruct (Z.eqb_spec a b)
  end; simpl.

Lemma index_nonneg (len : nat) (i : Z) :
  0 <= i < Z.of_nat len -> Py.index len i = Ok (Z.to_nat i).
Proof. intros H. unfold Py.index. zbool; (reflexivity || lia). Qed.

Lemma index_nonneg_inv (len : nat) (i : Z) (n : nat) :
  0 <= i -> Py.index len i = Ok n -> n = Z.to_nat i /\ (n < len)%nat.
Proof.
  intros H. unfold Py.index. zbool; try lia; intros E; inversion E; lia.
Qed.

Lemma getitem_nonneg {A : Type} (l : list A) (i : Z) (a : A) :
  0 <= i -> Py.getitem l i = Ok a <-> l !! Z.to_nat i = Some a.
Proof.
  intros H. unfold Py.getitem. split.
  - destruct (Py.index (length l) i) as [n|e] eqn:E; simpl; [|discriminate].
    apply index_nonneg_inv in E as [-> _]; [|assumption].
    destruct (l !! Z.to_nat i); congruence.
  - intros Hl. rewrite index_nonneg.
    + simpl. rewrite Hl. reflexivity.
    + apply lookup_lt_Some in Hl. lia.
Qed.

Lemma getitem_in_range {A : Type} (l : list A) (i : Z) :
  0 <= i < Z.of_nat (length l) -> exists a, Py.getitem l i = Ok a.
Proof.
  intros H. destruct (lookup_lt_is_Some_2 l (Z.to_nat i)) as [a Ha]; [lia|].
  exists a. apply getitem_nonneg; [lia | assumption].
Qed.

Lemma board_wf_lookup (b : board) (x y : Z) :
  board_wf b -> 0 <= x < GRID_WIDTH -> 0 <= y < GRID_HEIGHT ->
  exists r c, b !! Z.to_nat y = Some r /\ r !! Z.to_nat x = Some c /\
              length r = Z.to_nat GRID_WIDTH.
Proof.
  intros [Hlen Hrows] Hx Hy.
  destruct (lookup_lt_is_Some_2 b (Z.to_nat y)) as [r Hr]; [lia|].
  assert (Hw : length r = Z.to_nat GRID_WIDTH).
  { rewrite Forall_lookup in Hrows. exact (Hrows _ _ Hr). }
  destruct (lookup_lt_is_Some_2 r (Z.to_nat x)) as [c Hc]; [lia|].
  exists r, c. auto.
Qed.

(** ** Collision test *)

Lemma is_valid_cells_true (b : board) (cs : list (Z * Z)) :
  is_valid_cells b cs = Ok true <-> Forall (cell_free b) cs.
Proof.
  induction cs as [|[x y] cs IH]; simpl.
  - split; [constructor | reflexivity].
  - rewrite Forall_cons, <- IH. unfold cell_free, board_at. simpl.
    unfold GRID_WIDTH, GRID_HEIGHT. zbool; try (split; [discriminate | lia]).
    + destruct (Py.getitem b y) as [r|e] eqn:Er; simpl.
      * apply getitem_nonneg in Er; [|assumption]. rewrite Er. simpl.
        destruct (Py.getitem r x) as [c|e] eqn:Ec; simpl.
        -- apply getitem_nonneg in Ec; [|assumption]. rewrite Ec.
           destruct c as [k|]; simpl.
           ++ split; [discriminate|]. intros [(_ & _ & [?|?]) _]; [lia|congruence].
           ++ split; [intros; repeat split; auto; lia | tauto].
        -- split; [discriminate|]. intros [(_ & _ & [?|Hc]) _]; [lia|].
           apply getitem_nonneg in Hc; [congruence | assumption].
      * split; [discriminate|]. intros [(_ & _ & [?|Hc]) _]; [lia|].
        destruct (b !! Z.to_nat y) as [r|] eqn:Hb; simpl in Hc; [|discriminate].
        apply getitem_nonneg in Hb; [congruence | assumption].
    + split; [intros; repeat split; auto; lia | tauto].
Qed.

Lemma is_valid_cells_total (b : board) (cs : list (Z * Z)) :
  board_wf b -> exists v, is_valid_cells b cs = Ok v.
Proof.
  intros Hwf. induction cs as [|[x y] cs IH]; simpl; [eauto|].
  unfold GRID_WIDTH, GRID_HEIGHT. zbool; eauto.
  destruct (board_wf_lookup b x y Hwf) as (r & c & Hr & Hc & _);
    [unfold GRID_WIDTH; lia | unfold GRID_HEIGHT; lia |].
  apply getitem_nonneg in Hr, Hc; try assumption.
  rewrite Hr. simpl. rewrite Hc. simpl.
  destruct (bool_decide (c ≠ None)); eauto.
Qed.

Lemma is_valid_cells_out_of_grid (b : board) (cs : list (Z * Z)) :
  board_wf b -> Exists out_of_grid cs -> is_valid_cells b cs = Ok false.
Proof.
  intros Hwf Hex.
  destruct (is_valid_cells_total b cs Hwf) as [[|] Hv]; [|assumption].
  apply is_valid_cells_true in Hv. apply Exists_exists in Hex as (c & Hin & Hc).
  rewrite Forall_forall in Hv. specialize (Hv c Hin).
  destruct Hv as (? & ? & _). unfold out_of_grid in Hc. lia.
Qed.

(** C1.  [is_valid_position] answers true exactly when every occupied cell
    of the piece lies in a column of the grid, above the floor, and is
    either above the top row or on an empty board cell; cells above the top
    row put no condition on the board.  On a well-formed board it always
    answers, and the answer is false as soon as some cell is left of, right
    of, or below the grid. *)
Theorem is_valid_position_spec (b : board) (p : Tetromino) (cs : list (Z * Z)) :
  cells p = Ok cs ->
  (is_valid_position b p = Ok true <-> Forall (cell_free b) cs) /\
  (board_wf b -> exists v, is_valid_position b p = Ok v) /\
  (board_wf b -> Exists out_of_grid cs -> is_valid_position b p = Ok false).
Proof.
  intros Hcs. unfold is_valid_position. rewrite Hcs. simpl.
  split; [apply is_valid_cells_true|].
  split; [apply is_valid_cells_total | apply is_valid_cells_out_of_grid].
Qed.

Lemma is_valid_position_spec_witness :
  (is_valid_position create_board (new_piece "T") = Ok true <->
   Forall (cell_free create_board) [(4, 0); (3, 1); (4, 1); (5, 1)]) /\
  (board_wf create_board ->
   exists v, is_valid_position create_board (new_piece "T") = Ok v) /\
  (board_wf create_board ->
   Exists out_of_grid [(4, 0); (3, 1); (4, 1); (5, 1)] ->
   is_valid_position create_board (new_piece "T") = Ok false).
Proof.
  apply (is_valid_position_spec create_board (new_piece "T")). reflexivity.
Defined.

(** ** Line clearing *)

Lemma replicate_cons_middle {A : Type} (n : nat) (x : A) (l : list A) :
  replicate n x ++ x :: l = replicate (S n) x ++ l.
Proof. induction n as [|n IH]; simpl; [reflexivity | by rewrite IH]. Qed.

(** The refill loop leaves by its own condition: with at least as much
    fuel as rows are missing it pads the list to [GRID_HEIGHT] rows. *)
Lemma refill_rows_enough (fuel : nat) (rows : board) :
  (Z.to_nat GRID_HEIGHT - length rows <= fuel)%nat ->
  refill_rows fuel rows =
  replicate (Z.to_nat GRID_HEIGHT - length rows) empty_row ++ rows.
Proof.
  revert rows. induction fuel as [|fuel IH]; intros rows Hfuel;
    cbn [refill_rows].
  - replace (Z.to_nat GRID_HEIGHT - length rows)%nat with 0%nat by lia.
    reflexivity.
  - destruct (Z.ltb_spec (Z.of_nat (length rows)) GRID_HEIGHT) as [Hlt|Hge].
    + rewrite IH by (cbn [length]; lia). cbn [length].
      rewrite replicate_cons_middle. f_equal. f_equal.
      unfold GRID_HEIGHT in *. lia.
    + replace (Z.to_nat GRID_HEIGHT - length rows)%nat with 0%nat
        by (unfold GRID_HEIGHT in *; lia).
      reflexivity.
Qed.

Lemma filter_length_complement {A : Type} (P : A -> Prop)
    `{!forall x, Decision (P x)} (l : list A) :
  (length (filter P l) + length (filter (fun x => ~ P x) l) = length l)%nat.
Proof.
  induction l as [|x l IH]; [reflexivity|].
  rewrite !filter_cons. destruct (decide (P x)), (decide (~ P x));
    simpl; try lia; tauto.
Qed.

Lemma filter_not_full (b : board) :
  filter (fun r : row => None ∈ r) b = filter (fun r : row => ~ full r) b.
Proof.
  apply list_filter_iff. intros r. unfold full. split; [tauto|].
  intros H. destruct (decide (None ∈ r)); tauto.
Qed.

Lemma clear_lines_eq (b : board) :
  length b = Z.to_nat GRID_HEIGHT ->
  clear_lines b =
  (replicate (length (filter full b)) empty_row ++
     filter (fun r : row => ~ full r) b,
   Z.of_nat (length (filter full b))).
Proof.
  intros Hlen. unfold clear_lines.
  pose proof (filter_length_complement full b) as Hsum.
  rewrite refill_rows_enough by lia. rewrite filter_not_full.
  unfold GRID_HEIGHT in *. f_equal; [f_equal; f_equal|]; lia.
Qed.

Lemma filter_Forall_id {A : Type} (P : A -> Prop)
    `{!forall x, Decision (P x)} (l : list A) :
  Forall P l -> filter P l = l.
Proof.
  induction 1 as [|x l Hx _ IH]; [reflexivity|].
  rewrite filter_cons, decide_True by assumption. by rewrite IH.
Qed.

(** Filtering a list in which exactly two given elements fail the test. *)
Lemma filter_drop_two {A : Type} (P : A -> Prop)
    `{!forall x, Decision (P x)} (l1 l2 l3 : list A) (x y : A) :
  Forall P l1 -> ~ P x -> Forall P l2 -> ~ P y -> Forall P l3 ->
  filter P (l1 ++ x :: l2 ++ y :: l3) = l1 ++ l2 ++ l3.
Proof.
  intros H1 Hx H2 Hy H3.
  rewrite filter_app, filter_cons, decide_False by assumption.
  rewrite filter_app, filter_cons, decide_False by assumption.
  by rewrite !filter_Forall_id by assumption.
Qed.

(** In a board given row by row, a row has an empty cell as soon as the
    hypothesis [H] on the indices of the full rows excludes its index. *)
Ltac row_not_full H i :=
  match goal with
  | |- None ∈ ?r =>
      let Hd := fresh "Hd" in
      destruct (decide (None ∈ r)) as [Hd|Hd]; [exact Hd|];
      exfalso; pose proof (proj1 (H i r eq_refl) Hd); lia
  end.

(** C2.  On a board of [GRID_HEIGHT] rows, [clear_lines] returns the number
    of full rows and leaves that many empty rows on top of the rows that
    were not full, these in their old order.  When the full rows are exactly
    rows 3 and 5 it returns 2 and leaves two empty rows followed by rows
    0, 1, 2, 4, 6, ..., 19. *)
Theorem clear_lines_spec (b : board) :
  length b = Z.to_nat GRID_HEIGHT ->
  clear_lines b =
    (replicate (length (filter full b)) empty_row ++
       filter (fun r : row => ~ full r) b,
     Z.of_nat (length (filter full b))) /\
  length (clear_lines b).1 = Z.to_nat GRID_HEIGHT /\
  0 <= (clear_lines b).2 <= GRID_HEIGHT /\
  (forall i : nat, Z.of_nat i < (clear_lines b).2 ->
     (clear_lines b).1 !! i = Some empty_row) /\
  ((forall (i : nat) (r : row),
      b !! i = Some r -> full r <-> i = 3%nat \/ i = 5%nat) ->
   clear_lines b =
     (empty_row :: empty_row ::
        take 3 b ++ take 1 (drop 4 b) ++ drop 6 b, 2)).
Proof.
  intros Hlen. pose proof (filter_length_complement full b) as Hsum.
  rewrite clear_lines_eq by assumption. cbn [fst snd].
  split; [reflexivity|]. split; [|split; [|split]].
  - rewrite length_app, length_replicate. lia.
  - unfold GRID_HEIGHT in *. lia.
  - intros i Hi. rewrite lookup_app_l by (rewrite length_replicate; lia).
    apply lookup_replicate_2. lia.
  - intros H. rewrite <- clear_lines_eq by assumption. clear Hsum.
    do 20 (destruct b as [|? b]; [discriminate Hlen|]).
    destruct b; [|discriminate Hlen].
    unfold clear_lines.
    match goal with
    | |- context [filter _ (?r0 :: ?r1 :: ?r2 :: ?r3 :: ?r4 :: ?r5 :: ?rest)] =>
        change (r0 :: r1 :: r2 :: r3 :: r4 :: r5 :: rest)
          with ([r0; r1; r2] ++ r3 :: [r4] ++ r5 :: rest);
        assert (F3 : ~ None ∈ r3)
          by exact (proj2 (H 3%nat r3 eq_refl) (or_introl eq_refl));
        assert (F5 : ~ None ∈ r5)
          by exact (proj2 (H 5%nat r5 eq_refl) (or_intror eq_refl))
    end.
    rewrite filter_drop_two; [reflexivity | | assumption | | assumption | ].
    + repeat apply Forall_cons_2; [row_not_full H 0%nat | row_not_full H 1%nat
        | row_not_full H 2%nat | apply Forall_nil_2].
    + apply Forall_cons_2; [row_not_full H 4%nat | apply Forall_nil_2].
    + repeat apply Forall_cons_2;
        [ row_not_full H 6%nat | row_not_full H 7%nat | row_not_full H 8%nat
        | row_not_full H 9%nat | row_not_full H 10%nat | row_not_full H 11%nat
        | row_not_full H 12%nat | row_not_full H 13%nat
        | row_not_full H 14%nat | row_not_full H 15%nat
        | row_not_full H 16%nat | row_not_full H 17%nat
        | row_not_full H 18%nat | row_not_full H 19%nat | apply Forall_nil_2 ].
Qed.

Lemma clear_lines_spec_witness :
  clear_lines create_board =
    (replicate (length (filter full create_board)) empty_row ++
       filter (fun r : row => ~ full r) create_board,
     Z.of_nat (length (filter full create_board))) /\
  length (clear_lines create_board).1 = Z.to_nat GRID_HEIGHT /\
  0 <= (clear_lines create_board).2 <= GRID_HEIGHT /\
  (forall i : nat, Z.of_nat i < (clear_lines create_board).2 ->
     (clear_lines create_board).1 !! i = Some empty_row) /\
  ((forall (i : nat) (r : row),
      create_board !! i = Some r -> full r <-> i = 3%nat \/ i = 5%nat) ->
   clear_lines create_board =
     (empty_row :: empty_row ::
        take 3 create_board ++ take 1 (drop 4 create_board) ++
        drop 6 create_board, 2)).
Proof. apply (clear_lines_spec create_board). reflexivity. Defined.

(** ** Scoring and levels *)

Lemma scoring_table_lookup (cleared : Z) :
  default 0 (scoring_table !! cleared) = score_delta_spec cleared.
Proof.
  unfold scoring_table, score_delta_spec.
  destruct (decide (cleared = 0)) as [->|H0]; [reflexivity|].
  rewrite lookup_insert_ne by congruence.
  destruct (decide (cleared = 1)) as [->|H1]; [reflexivity|].
  rewrite lookup_insert_ne by congruence.
  destruct (decide (cleared = 2)) as [->|H2]; [reflexivity|].
  rewrite lookup_insert_ne by congruence.
  destruct (decide (cleared = 3)) as [->|H3]; [reflexivity|].
  rewrite lookup_insert_ne by congruence.
  destruct (decide (cleared = 4)) as [->|H4]; [reflexivity|].
  rewrite lookup_insert_ne by congruence.
  rewrite lookup_empty. simpl.
  zbool; congruence.
Qed.

(** C4.  A lock that clears [cleared] rows adds 100, 300, 500 or 800 points
    for 1, 2, 3 or 4 rows and nothing for any other count, adds [cleared]
    to the line total, sets the level to [max 1 (lines / 10 + 1)] and the
    drop interval to [max 100 (700 - (level - 1) * 60)]; from score 1000,
    9 lines, two cleared rows give 1300, 11 lines, level 2, 640 ms. *)
Theorem update_level_and_score_spec (score lines_cleared cleared_now : Z) :
  update_level_and_score score lines_cleared cleared_now =
    (score + score_delta_spec cleared_now,
     lines_cleared + cleared_now,
     Z.max 1 ((lines_cleared + cleared_now) / 10 + 1)) /\
  (score_delta_spec 0 = 0 /\ score_delta_spec 1 = 100 /\
   score_delta_spec 2 = 300 /\ score_delta_spec 3 = 500 /\
   score_delta_spec 4 = 800 /\
   (~ 0 <= cleared_now <= 4 -> score_delta_spec cleared_now = 0)) /\
  (forall level : Z,
     calculate_drop_interval level = Z.max 100 (700 - (level - 1) * 60) /\
     100 <= calculate_drop_interval level) /\
  update_level_and_score 1000 9 2 = (1300, 11, 2) /\
  calculate_drop_interval 2 = 640.
Proof.
  split; [|split; [|split; [|split]]]; try reflexivity.
  - unfold update_level_and_score. by rewrite scoring_table_lookup.
  - repeat split. intros H. unfold score_delta_spec. zbool; (reflexivity || lia).
  - intros level. unfold calculate_drop_interval. split; [reflexivity | lia].
Qed.

(** ** Facts about the shape catalogue *)

Lemma dict_get_elem_of {V : Type} (d : list (string * V)) (k : string) (v : V) :
  Py.dict_get d k = Ok v -> (k, v) ∈ d.
Proof.
  induction d as [|[k' v'] d IH]; simpl; [discriminate|].
  destruct (String.eqb_spec k' k) as [->|Hne].
  - intros [= ->]. apply list_elem_of_here.
  - intros H. apply list_elem_of_further, IH, H.
Qed.

Lemma dict_get_keys {V : Type} (d : list (string * V)) (k : string) :
  k ∈ Py.keys d <-> exists v, Py.dict_get d k = Ok v.
Proof.
  unfold Py.keys. induction d as [|[k' v'] d IH]; simpl.
  - split; [intros H; inversion H | intros [v H]; discriminate].
  - destruct (String.eqb_spec k' k) as [->|Hne].
    + split; [eauto | intros _; apply list_elem_of_here].
    + rewrite elem_of_cons, IH. split; [intros [?|?]; congruence | auto].
Qed.

Lemma dict_get_unknown {V : Type} (d : list (string * V)) (k : string) :
  k ∉ Py.keys d -> Py.dict_get d k = Raise KeyError.
Proof.
  unfold Py.keys. induction d as [|[k' v'] d IH]; simpl; [reflexivity|].
  rewrite not_elem_of_cons. intros [Hne Hnot].
  destruct (String.eqb_spec k' k) as [->|_]; [congruence | auto].
Qed.

Lemma getitem_elem_of {A : Type} (l : list A) (i : Z) (a : A) :
  Py.getitem l i = Ok a -> a ∈ l.
Proof.
  unfold Py.getitem. destruct (Py.index (length l) i) as [n|e]; simpl;
    [|discriminate].
  destruct (l !! n) as [a'|] eqn:E; [|discriminate].
  intros [= ->]. eapply list_elem_of_lookup_2, E.
Qed.

Lemma SHAPES_ok : Forall (fun kv => rotations_ok kv.2) SHAPES.
Proof.
  unfold SHAPES, rotations_ok, state_ok.
  repeat first [ apply Forall_cons_2 | apply Forall_nil_2 ]; simpl;
    repeat first [ apply Forall_cons_2 | apply Forall_nil_2 | split ];
    simpl; lia.
Qed.

Lemma shapes_rotations (nm : string) (rotations : list (list (Z * Z))) :
  Py.dict_get SHAPES nm = Ok rotations -> rotations_ok rotations.
Proof.
  intros H. apply dict_get_elem_of in H.
  pose proof SHAPES_ok as Hall. rewrite Forall_forall in Hall.
  exact (Hall _ H).
Qed.

Lemma piece_ok_cells (p : Tetromino) :
  piece_ok p ->
  exists offsets,
    state_ok offsets /\
    cells p = Ok (map (fun o : Z * Z => ((position p).1 + o.1,
                                          (position p).2 + o.2)) offsets).
Proof.
  intros (rots & Hr & Hi). unfold cells. rewrite Hr. simpl.
  destruct (getitem_in_range rots (rotation p) Hi) as [offs Ho].
  rewrite Ho. simpl. exists offs. split.
  - apply shapes_rotations in Hr as [_ Hall]. rewrite Forall_forall in Hall.
    apply Hall. eapply getitem_elem_of, Ho.
  - destruct (position p). reflexivity.
Qed.

Lemma piece_ok_moved (p : Tetromino) (dx dy : Z) :
  piece_ok p -> piece_ok (moved p dx dy).
Proof. unfold piece_ok, moved. destruct (position p). auto. Qed.

Lemma piece_ok_has_cells (p : Tetromino) : piece_ok p -> has_cells p.
Proof. intros H. destruct (piece_ok_cells p H) as (offs & _ & Hc). eexists; eauto. Qed.

Lemma has_cells_moved (p : Tetromino) (dx dy : Z) :
  has_cells p -> has_cells (moved p dx dy).
Proof.
  destruct p as [nm r [px py]]. unfold has_cells, cells, moved.
  cbn [name rotation position]. intros [cs H].
  destruct (Py.dict_get SHAPES nm) as [rots|e]; [|discriminate].
  cbn [bind] in *.
  destruct (Py.getitem rots r) as [offs|e]; [|discriminate].
  cbn [bind]. eauto.
Qed.

Lemma piece_ok_new (nm : string) : nm ∈ SHAPE_ORDER -> piece_ok (new_piece nm).
Proof.
  intros H. apply dict_get_keys in H as [rots Hr]. exists rots.
  split; [exact Hr|]. apply shapes_rotations in Hr as [Hlen _].
  simpl. lia.
Qed.

(** ** Rotation *)

Lemma rotated_eq (p : Tetromino) (direction : Z) (rotations : list (list (Z * Z))) :
  Py.dict_get SHAPES (name p) = Ok rotations ->
  rotated p direction =
  Ok (mkTetromino (name p)
        ((rotation p + direction) mod Z.of_nat (length rotations))
        (position p)).
Proof.
  intros Hr. unfold rotated. rewrite Hr. simpl. unfold Py.mod_.
  apply shapes_rotations in Hr as [Hlen _].
  destruct (Z.eqb_spec (Z.of_nat (length rotations)) 0); [lia | reflexivity].
Qed.

Lemma rotate_all_eq (ds : list Z) (d : Z) (p : Tetromino)
    (rotations : list (list (Z * Z))) :
  Py.dict_get SHAPES (name p) = Ok rotations ->
  rotate_all p (d :: ds) =
  Ok (mkTetromino (name p)
        ((rotation p + foldr Z.add 0 (d :: ds)) mod Z.of_nat (length rotations))
        (position p)).
Proof.
  revert d p. induction ds as [|d' ds IH]; intros d p Hr.
  - simpl. rewrite (rotated_eq p d rotations Hr). simpl. by rewrite Z.add_0_r.
  - cbn [rotate_all] in *. rewrite (rotated_eq p d rotations Hr).
    cbn [bind]. rewrite IH by exact Hr. cbn [name rotation position foldr].
    rewrite Zplus_mod_idemp_l. do 3 f_equal. lia.
Qed.

Lemma rotate_four (p : Tetromino) (direction : Z) :
  piece_ok p -> rotate_all p (replicate 4 direction) = Ok p.
Proof.
  intros (rots & Hr & Hi). cbn [replicate].
  rewrite (rotate_all_eq _ _ _ rots Hr). cbn [foldr].
  apply shapes_rotations in Hr as [Hlen _].
  destruct p as [nm r pos]. cbn [name rotation position] in *.
  do 2 f_equal.
  destruct Hlen as [Hl|[Hl|Hl]]; rewrite Hl in *.
  - replace (r + (direction + (direction + (direction + (direction + 0)))))
      with (r + (4 * direction) * Z.of_nat 1) by lia.
    rewrite Z_mod_plus_full. apply Z.mod_small. lia.
  - replace (r + (direction + (direction + (direction + (direction + 0)))))
      with (r + (2 * direction) * Z.of_nat 2) by lia.
    rewrite Z_mod_plus_full. apply Z.mod_small. lia.
  - replace (r + (direction + (direction + (direction + (direction + 0)))))
      with (r + direction * Z.of_nat 4) by lia.
    rewrite Z_mod_plus_full. apply Z.mod_small. lia.
Qed.

Lemma rotate_O (p : Tetromino) (ds : list Z) :
  piece_ok p -> name p = "O" -> rotate_all p ds = Ok p.
Proof.
  intros (rots & Hr & Hi) HO. destruct ds as [|d ds]; [reflexivity|].
  rewrite (rotate_all_eq _ _ _ rots Hr).
  rewrite HO in Hr. injection Hr as <-.
  destruct p as [nm r pos]. cbn [name rotation position length] in *.
  do 2 f_equal. rewrite Z.mod_1_r. lia.
Qed.

(** C6.  [rotated] keeps kind and anchor and moves the rotation index by
    [direction] modulo the number of rotation states of the kind; four
    rotations in one direction give the piece back, index and cells, and
    no sequence of rotations changes the cells of an O piece. *)
Theorem rotated_spec (p : Tetromino) (direction : Z) :
  piece_ok p ->
  (exists rotations,
     Py.dict_get SHAPES (name p) = Ok rotations /\
     rotated p direction =
     Ok (mkTetromino (name p)
           ((rotation p + direction) mod Z.of_nat (length rotations))
           (position p))) /\
  (exists p4,
     rotate_all p [direction; direction; direction; direction] = Ok p4 /\
     rotation p4 = rotation p /\ cells p4 = cells p) /\
  (name p = "O" ->
   forall directions : list Z,
   exists p', rotate_all p directions = Ok p' /\ cells p' = cells p).
Proof.
  intros Hok. split; [|split].
  - destruct Hok as (rots & Hr & _). exists rots. split; [exact Hr|].
    by apply rotated_eq.
  - exists p. split; [exact (rotate_four p direction Hok) | done].
  - intros HO ds. exists p. split; [by apply rotate_O | done].
Qed.

Lemma rotated_spec_witness :
  (exists rotations,
     Py.dict_get SHAPES (name (new_piece "O")) = Ok rotations /\
     rotated (new_piece "O") (-1) =
     Ok (mkTetromino (name (new_piece "O"))
           ((rotation (new_piece "O") + -1) mod Z.of_nat (length rotations))
           (position (new_piece "O")))) /\
  (exists p4,
     rotate_all (new_piece "O") [-1; -1; -1; -1] = Ok p4 /\
     rotation p4 = rotation (new_piece "O") /\
     cells p4 = cells (new_piece "O")) /\
  (name (new_piece "O") = "O" ->
   forall directions : list Z,
   exists p', rotate_all (new_piece "O") directions = Ok p' /\
              cells p' = cells (new_piece "O")).
Proof.
  apply (rotated_spec (new_piece "O") (-1)).
  eexists. split; [reflexivity | simpl; lia].
Defined.

(** ** Pieces that are not pieces *)

(** Python reads a negative index from the end of the list: rotation index
    -1 of a T piece is its last rotation state, and [cells] returns it. *)
Lemma cells_negative_rotation_accepted :
  exists rotations,
    Py.dict_get SHAPES "T" = Ok rotations /\
    ~ 0 <= -1 < Z.of_nat (length rotations) /\
    cells (mkTetromino "T" (-1) (3, 0)) = Ok [(4, 0); (3, 1); (4, 1); (4, 2)].
Proof. eexists. split; [reflexivity|]. split; [simpl; lia | reflexivity]. Qed.

Lemma getitem_out_of_range {A : Type} (l : list A) (i : Z) :
  i < - Z.of_nat (length l) \/ Z.of_nat (length l) <= i ->
  Py.getitem l i = Raise IndexError.
Proof.
  intros H. unfold Py.getitem, Py.index. zbool; (reflexivity || lia).
Qed.

Lemma getitem_negative {A : Type} (l : list A) (i : Z) :
  - Z.of_nat (length l) <= i < 0 ->
  Py.getitem l i = Py.getitem l (i + Z.of_nat (length l)).
Proof.
  intros H. unfold Py.getitem, Py.index. zbool; (reflexivity || lia).
Qed.

(** C9, as the code has it.  Building a piece checks nothing.  Computing
    its cells raises [KeyError] for an unknown kind and [IndexError] for a
    rotation index [r] below [-n] or from [n] on, [n] being the number of
    rotation states of the kind; an index [-n <= r < 0] is accepted and
    gives the cells of state [r + n]. *)
Theorem cells_errors_spec (p : Tetromino) :
  (name p ∉ SHAPE_ORDER -> cells p = Raise KeyError) /\
  (forall rotations,
     Py.dict_get SHAPES (name p) = Ok rotations ->
     (rotation p < - Z.of_nat (length rotations) \/
      Z.of_nat (length rotations) <= rotation p ->
      cells p = Raise IndexError) /\
     (- Z.of_nat (length rotations) <= rotation p < 0 ->
      cells p =
      cells (mkTetromino (name p)
               (rotation p + Z.of_nat (length rotations)) (position p)) /\
      exists cs, cells p = Ok cs)).
Proof.
  split.
  - intros H. unfold cells. by rewrite (dict_get_unknown SHAPES (name p) H).
  - intros rots Hr. split.
    + intros H. unfold cells. rewrite Hr. simpl.
      by rewrite getitem_out_of_range.
    + intros H.
      assert (E : cells p =
                  cells (mkTetromino (name p)
                           (rotation p + Z.of_nat (length rots)) (position p))).
      { unfold cells. cbn [name rotation position]. rewrite Hr. cbn [bind].
        by rewrite getitem_negative by lia. }
      split; [exact E|]. rewrite E.
      destruct (piece_ok_cells (mkTetromino (name p)
                  (rotation p + Z.of_nat (length rots)) (position p)))
        as (offs & _ & Hc); [|eauto].
      exists rots. cbn [name rotation]. split; [exact Hr | lia].
Qed.

(** ** Locking *)

Lemma setitem_nonneg {A : Type} (l : list A) (i : Z) (a : A) :
  0 <= i < Z.of_nat (length l) ->
  Py.setitem l i a = Ok (<[Z.to_nat i := a]> l).
Proof. intros H. unfold Py.setitem. by rewrite index_nonneg. Qed.

Lemma board_wf_insert (b : board) (i : nat) (r : row) :
  board_wf b -> length r = Z.to_nat GRID_WIDTH -> board_wf (<[i := r]> b).
Proof.
  intros [Hlen Hrows] Hr. split.
  - by rewrite length_insert.
  - by apply Forall_insert.
Qed.

(** Reading the board after one cell of it has been written. *)
Lemma board_at_insert (b : board) (r : row) (c : cell) (x0 y0 x y : Z) :
  board_wf b -> b !! Z.to_nat y0 = Some r ->
  0 <= x0 < GRID_WIDTH -> 0 <= y0 < GRID_HEIGHT ->
  0 <= x < GRID_WIDTH -> 0 <= y < GRID_HEIGHT ->
  board_at (<[Z.to_nat y0 := <[Z.to_nat x0 := c]> r]> b) x y =
  if decide ((x, y) = (x0, y0)) then Some c else board_at b x y.
Proof.
  intros [Hlen Hrows] Hr Hx0 Hy0 Hx Hy. unfold board_at.
  assert (Hw : length r = Z.to_nat GRID_WIDTH).
  { rewrite Forall_lookup in Hrows. exact (Hrows _ _ Hr). }
  unfold GRID_WIDTH, GRID_HEIGHT in *.
  destruct (decide (y = y0)) as [->|Hy'].
  - rewrite list_lookup_insert_eq by lia. rewrite Hr. simpl.
    destruct (decide (x = x0)) as [->|Hx'].
    + rewrite list_lookup_insert_eq by lia. by rewrite decide_True.
    + rewrite list_lookup_insert_ne by lia.
      rewrite decide_False by congruence. reflexivity.
  - rewrite list_lookup_insert_ne by lia.
    rewrite decide_False by congruence. reflexivity.
Qed.

Lemma lock_cells_spec (nm : string) (cs : list (Z * Z)) (b : board) :
  board_wf b ->
  Forall (fun c : Z * Z => 0 <= c.1 < GRID_WIDTH /\ c.2 < GRID_HEIGHT) cs ->
  exists b',
    lock_cells b nm cs = Ok b' /\ board_wf b' /\
    (forall x y, 0 <= x < GRID_WIDTH -> 0 <= y < GRID_HEIGHT ->
       board_at b' x y =
       if decide ((x, y) ∈ cs) then Some (Some nm) else board_at b x y) /\
    (cells_ok b -> nm ∈ SHAPE_ORDER -> cells_ok b').
Proof.
  intros Hwf Hcs. revert b Hwf.
  induction Hcs as [|[x0 y0] cs [Hx0 Hy0] _ IH]; intros b Hwf.
  - exists b. split; [reflexivity|]. split; [assumption|]. split; [|auto].
    intros x y _ _. rewrite decide_False; [reflexivity | apply not_elem_of_nil].
  - cbn [lock_cells fst snd] in *.
    destruct (Z.leb_spec 0 y0) as [Hy0'|Hy0'];
      destruct (Z.ltb_spec y0 GRID_HEIGHT) as [_|?]; try lia; cbn [andb].
    + destruct (board_wf_lookup b x0 y0 Hwf) as (r & c & Hr & Hc & Hw);
        [lia | lia |].
      pose proof Hwf as [Hlen Hrows].
      rewrite (proj2 (getitem_nonneg b y0 r Hy0') Hr). cbn [bind].
      rewrite setitem_nonneg by (unfold GRID_WIDTH in *; lia). cbn [bind].
      rewrite setitem_nonneg by (unfold GRID_HEIGHT in *; lia). cbn [bind].
      set (b1 := <[Z.to_nat y0 := <[Z.to_nat x0 := Some nm]> r]> b).
      assert (Hwf1 : board_wf b1).
      { apply board_wf_insert; [assumption|]. by rewrite length_insert. }
      destruct (IH b1 Hwf1) as (b' & Hb' & Hwf' & Hat & Hok).
      exists b'. split; [exact Hb'|]. split; [exact Hwf'|]. split.
      * intros x y Hx Hy. rewrite (Hat x y Hx Hy). unfold b1.
        rewrite (board_at_insert b r (Some nm) x0 y0 x y) by (assumption || lia).
        destruct (decide ((x, y) ∈ cs)) as [Hin|Hin].
        -- rewrite decide_True; [reflexivity | by apply list_elem_of_further].
        -- destruct (decide ((x, y) = (x0, y0))) as [->|Hne].
           ++ rewrite decide_True; [reflexivity | apply list_elem_of_here].
           ++ rewrite decide_False; [reflexivity|].
              rewrite elem_of_cons. tauto.
      * intros Hcells Hnm. apply Hok; [|exact Hnm]. unfold b1, cells_ok in *.
        apply Forall_insert; [assumption|]. apply Forall_insert; [|exact Hnm].
        rewrite Forall_lookup in Hcells. exact (Hcells _ _ Hr).
    + destruct (IH b Hwf) as (b' & Hb' & Hwf' & Hat & Hok).
      exists b'. split; [exact Hb'|]. split; [exact Hwf'|].
      split; [|exact Hok].
      intros x y Hx Hy. rewrite (Hat x y Hx Hy).
      destruct (decide ((x, y) ∈ cs)) as [Hin|Hin].
      * rewrite decide_True; [reflexivity | by apply list_elem_of_further].
      * rewrite decide_False; [reflexivity|].
        rewrite elem_of_cons. intros [[= -> ->]|?]; [lia | tauto].
Qed.

Lemma valid_position_cells (b : board) (p : Tetromino) :
  is_valid_position b p = Ok true ->
  exists cs, cells p = Ok cs /\ Forall (cell_free b) cs /\
             name p ∈ SHAPE_ORDER.
Proof.
  unfold is_valid_position. intros H.
  destruct (cells p) as [cs|e] eqn:Hc; [|discriminate].
  exists cs. split; [reflexivity|]. split; [by apply is_valid_cells_true|].
  unfold cells in Hc. apply dict_get_keys.
  destruct (Py.dict_get SHAPES (name p)) as [rots|e]; [eauto | discriminate].
Qed.

(** C10.  Locking a piece that sits validly on a well-formed board succeeds
    and leaves a well-formed board on which every cell of the grid that the
    piece occupies holds the piece's kind and every other cell holds what
    it held before; if every cell held nothing or a kind before, so it is
    afterwards. *)
Theorem lock_piece_spec (b : board) (p : Tetromino) :
  board_wf b -> is_valid_position b p = Ok true ->
  exists cs b',
    cells p = Ok cs /\ lock_piece b p = Ok b' /\ board_wf b' /\
    (forall x y, 0 <= x < GRID_WIDTH -> 0 <= y < GRID_HEIGHT ->
       board_at b' x y =
       if decide ((x, y) ∈ cs) then Some (Some (name p)) else board_at b x y) /\
    (cells_ok b -> cells_ok b').
Proof.
  intros Hwf Hvalid.
  destruct (valid_position_cells b p Hvalid) as (cs & Hcs & Hfree & Hnm).
  destruct (lock_cells_spec (name p) cs b Hwf) as (b' & Hb' & Hwf' & Hat & Hok).
  { eapply Forall_impl; [exact Hfree|]. intros c (? & ? & _). auto. }
  exists cs, b'. unfold lock_piece. rewrite Hcs. cbn [bind].
  split; [reflexivity|]. split; [exact Hb'|]. split; [exact Hwf'|].
  split; [exact Hat | auto].
Qed.

Lemma create_board_wf : board_wf create_board.
Proof.
  split; [reflexivity|]. unfold create_board. apply Forall_replicate.
  reflexivity.
Qed.

Lemma lock_piece_spec_witness :
  exists cs b',
    cells (new_piece "T") = Ok cs /\
    lock_piece create_board (new_piece "T") = Ok b' /\ board_wf b' /\
    (forall x y, 0 <= x < GRID_WIDTH -> 0 <= y < GRID_HEIGHT ->
       board_at b' x y =
       if decide ((x, y) ∈ cs) then Some (Some (name (new_piece "T")))
       else board_at create_board x y) /\
    (cells_ok create_board -> cells_ok b').
Proof.
  apply (lock_piece_spec create_board (new_piece "T")).
  - exact create_board_wf.
  - reflexivity.
Defined.

(** ** Hard drop *)

Lemma moved_0 (p : Tetromino) : moved p 0 0 = p.
Proof. destruct p as [nm r [px py]]. unfold moved. simpl. by rewrite !Z.add_0_r. Qed.

Lemma moved_down_twice (p : Tetromino) (a b : Z) :
  moved (moved p 0 a) 0 b = moved p 0 (a + b).
Proof.
  destruct p as [nm r [px py]]. unfold moved. simpl.
  by rewrite !Z.add_0_r, Z.add_assoc.
Qed.

Lemma moved_position (p : Tetromino) (dx dy : Z) :
  name (moved p dx dy) = name p /\ rotation (moved p dx dy) = rotation p /\
  position (moved p dx dy) = ((position p).1 + dx, (position p).2 + dy).
Proof. destruct p as [nm r [px py]]. auto. Qed.

Lemma cells_inv (p : Tetromino) (cs : list (Z * Z)) :
  cells p = Ok cs ->
  exists offsets,
    state_ok offsets /\
    cs = map (fun o : Z * Z => ((position p).1 + o.1, (position p).2 + o.2))
           offsets.
Proof.
  unfold cells. intros H.
  destruct (Py.dict_get SHAPES (name p)) as [rots|e] eqn:Hr; [|discriminate].
  cbn [bind] in H.
  destruct (Py.getitem rots (rotation p)) as [offs|e] eqn:Ho; [|discriminate].
  cbn [bind] in H. exists offs. split.
  - apply shapes_rotations in Hr as [_ Hall]. rewrite Forall_forall in Hall.
    apply Hall. eapply getitem_elem_of, Ho.
  - destruct (position p). by injection H as <-.
Qed.

(** A validly placed piece has its anchor above the floor: each rotation
    state has a cell, and no cell is above the anchor. *)
Lemma valid_position_above_floor (b : board) (p : Tetromino) :
  is_valid_position b p = Ok true -> (position p).2 < GRID_HEIGHT.
Proof.
  intros H. apply valid_position_cells in H as (cs & Hcs & Hfree & _).
  apply cells_inv in Hcs as (offs & [Hlen Hbox] & ->).
  destruct offs as [|o offs]; [discriminate Hlen|].
  apply Forall_cons_1 in Hbox as [Ho _].
  cbn [map] in Hfree. apply Forall_cons_1 in Hfree as [(_ & Hy & _) _].
  cbn [fst snd] in Hy. lia.
Qed.

Lemma is_valid_position_total (b : board) (p : Tetromino) :
  board_wf b -> has_cells p -> exists v, is_valid_position b p = Ok v.
Proof.
  intros Hwf [cs Hc]. unfold is_valid_position. rewrite Hc. cbn [bind].
  by apply is_valid_cells_total.
Qed.

(** The loop returns once the fuel exceeds the distance from the anchor to
    the floor, whatever the board and the piece are. *)
Lemma hard_drop_returns (b : board) (n : nat) (p : Tetromino) :
  GRID_HEIGHT - (position p).2 <= Z.of_nat n ->
  exists r, forall fuel, (S n <= fuel)%nat -> hard_drop fuel b p = Some r.
Proof.
  revert p. induction n as [|n IH]; intros p Hn.
  - destruct (is_valid_position b (moved p 0 1)) as [[|]|e] eqn:Hv.
    + apply valid_position_above_floor in Hv.
      destruct (moved_position p 0 1) as (_ & _ & Hpos). rewrite Hpos in Hv.
      cbn [snd] in Hv. lia.
    + exists (Ok p). intros [|fuel] Hf; [lia|]. cbn [hard_drop]. by rewrite Hv.
    + exists (Raise e). intros [|fuel] Hf; [lia|]. cbn [hard_drop]. by rewrite Hv.
  - destruct (is_valid_position b (moved p 0 1)) as [[|]|e] eqn:Hv.
    + destruct (IH (moved p 0 1)) as [r Hr].
      { destruct (moved_position p 0 1) as (_ & _ & Hpos). rewrite Hpos.
        cbn [snd]. lia. }
      exists r. intros [|fuel] Hf; [lia|]. cbn [hard_drop]. rewrite Hv.
      apply Hr. lia.
    + exists (Ok p). intros [|fuel] Hf; [lia|]. cbn [hard_drop]. by rewrite Hv.
    + exists (Raise e). intros [|fuel] Hf; [lia|]. cbn [hard_drop]. by rewrite Hv.
Qed.

Lemma hard_drop_lowest (b : board) (n : nat) (p : Tetromino) :
  board_wf b -> has_cells p ->
  GRID_HEIGHT - (position p).2 <= Z.of_nat n ->
  exists k,
    0 <= k /\
    (forall fuel, (S n <= fuel)%nat ->
       hard_drop fuel b p = Some (Ok (moved p 0 k))) /\
    (forall j, 1 <= j <= k -> is_valid_position b (moved p 0 j) = Ok true) /\
    is_valid_position b (moved p 0 (k + 1)) = Ok false.
Proof.
  intros Hwf. revert p. induction n as [|n IH]; intros p Hp Hn;
    destruct (is_valid_position_total b (moved p 0 1) Hwf
                (has_cells_moved p 0 1 Hp)) as [[|] Hv].
  - apply valid_position_above_floor in Hv.
    destruct (moved_position p 0 1) as (_ & _ & Hpos). rewrite Hpos in Hv.
    cbn [snd] in Hv. lia.
  - exists 0. split; [lia|]. split; [|split; [intros; lia | exact Hv]].
    intros [|fuel] Hf; [lia|]. cbn [hard_drop]. by rewrite Hv, moved_0.
  - destruct (IH (moved p 0 1) (has_cells_moved p 0 1 Hp))
      as (k & Hk & Hrun & Hall & Hstop).
    { destruct (moved_position p 0 1) as (_ & _ & Hpos). rewrite Hpos.
      cbn [snd]. lia. }
    exists (1 + k). split; [lia|]. split; [|split].
    + intros [|fuel] Hf; [lia|]. cbn [hard_drop]. rewrite Hv.
      rewrite Hrun by lia. by rewrite moved_down_twice.
    + intros j Hj. destruct (decide (j = 1)) as [->|Hj1]; [exact Hv|].
      replace j with (1 + (j - 1)) by lia. rewrite <- moved_down_twice.
      apply Hall. lia.
    + rewrite moved_down_twice in Hstop.
      by replace (1 + k + 1) with (1 + (k + 1)) by lia.
  - exists 0. split; [lia|]. split; [|split; [intros; lia | exact Hv]].
    intros [|fuel] Hf; [lia|]. cbn [hard_drop]. by rewrite Hv, moved_0.
Qed.

(** C8.  [hard_drop] returns on every board and piece: some amount of fuel
    is enough and more fuel gives the same result.  On a well-formed board
    and for a real piece the result is the piece moved down by [k] rows,
    where moving it down by 1, ..., [k] rows is valid and by [k + 1] rows is
    not, so that [k] is the greatest such number; kind, rotation and column
    are those of the piece.  A real piece is one whose cells can be
    computed. *)
Theorem hard_drop_spec (b : board) (p : Tetromino) :
  (exists fuel r,
     forall fuel', (fuel <= fuel')%nat -> hard_drop fuel' b p = Some r) /\
  (board_wf b -> has_cells p ->
   exists k fuel,
     0 <= k /\
     (forall fuel', (fuel <= fuel')%nat ->
        hard_drop fuel' b p = Some (Ok (moved p 0 k))) /\
     (forall j, 1 <= j <= k ->
        is_valid_position b (moved p 0 j) = Ok true) /\
     is_valid_position b (moved p 0 (k + 1)) = Ok false /\
     (forall k', 0 <= k' ->
        (forall j, 1 <= j <= k' ->
           is_valid_position b (moved p 0 j) = Ok true) -> k' <= k) /\
     name (moved p 0 k) = name p /\ rotation (moved p 0 k) = rotation p /\
     position (moved p 0 k) = ((position p).1, (position p).2 + k)).
Proof.
  set (n := Z.to_nat (GRID_HEIGHT - (position p).2)).
  split.
  - destruct (hard_drop_returns b n p) as [r Hr]; [lia|]. by exists (S n), r.
  - intros Hwf Hp.
    destruct (hard_drop_lowest b n p Hwf Hp) as (k & Hk & Hrun & Hall & Hstop);
      [lia|].
    exists k, (S n). split; [exact Hk|]. split; [exact Hrun|].
    split; [exact Hall|]. split; [exact Hstop|]. split.
    + intros k' Hk' Hall'. destruct (decide (k' <= k)) as [|Hgt]; [assumption|].
      rewrite Hall' in Hstop by lia. discriminate.
    + destruct (moved_position p 0 k) as (-> & -> & ->).
      by rewrite Z.add_0_r.
Qed.

Lemma hard_drop_spec_witness :
  exists k fuel,
    0 <= k /\
    (forall fuel', (fuel <= fuel')%nat ->
       hard_drop fuel' create_board (new_piece "I") =
       Some (Ok (moved (new_piece "I") 0 k))) /\
    (forall j, 1 <= j <= k ->
       is_valid_position create_board (moved (new_piece "I") 0 j) = Ok true) /\
    is_valid_position create_board (moved (new_piece "I") 0 (k + 1)) = Ok false /\
    (forall k', 0 <= k' ->
       (forall j, 1 <= j <= k' ->
          is_valid_position create_board (moved (new_piece "I") 0 j) = Ok true) ->
       k' <= k) /\
    name (moved (new_piece "I") 0 k) = name (new_piece "I") /\
    rotation (moved (new_piece "I") 0 k) = rotation (new_piece "I") /\
    position (moved (new_piece "I") 0 k) =
      ((position (new_piece "I")).1, (position (new_piece "I")).2 + k).
Proof.
  apply (proj2 (hard_drop_spec create_board (new_piece "I"))).
  - exact create_board_wf.
  - eexists. reflexivity.
Defined.

(** On the empty board the I piece falls from row 0 to row 18, its cells
    being one row below its anchor. *)
Example hard_drop_I_empty_board :
  hard_drop 30 create_board (new_piece "I") =
  Some (Ok (mkTetromino "I" 0 (3, 18))).
Proof. reflexivity. Qed.

(** ** The bag randomizer *)

Section Randomizer.

Context {Rng : Type} (shuffle : Rng -> list string -> list string * Rng).
Hypothesis shuffle_perm : forall g l, (shuffle g l).1 ≡ₚ l.

Lemma next_bag_perm (g : Rng) : (next_bag shuffle g).1 ≡ₚ SHAPE_ORDER.
Proof. apply shuffle_perm. Qed.

Lemma spawn_piece_front (k : string) (q : list string) (g : Rng) :
  spawn_piece shuffle (k :: q) g = Ok (k, q, g).
Proof. reflexivity. Qed.

Lemma spawn_piece_refill (g : Rng) :
  exists k rest,
    (next_bag shuffle g).1 = k :: rest /\
    spawn_piece shuffle [] g = Ok (k, rest, (next_bag shuffle g).2).
Proof.
  pose proof (next_bag_perm g) as Hperm. unfold spawn_piece.
  destruct (next_bag shuffle g) as [bag g'] eqn:E. cbn [fst snd app] in *.
  destruct bag as [|k rest].
  - apply Permutation_length in Hperm. discriminate Hperm.
  - by exists k, rest.
Qed.

Lemma draws_queue (q : list string) (g : Rng) :
  draws shuffle (length q) q g = Ok (q, [], g).
Proof.
  induction q as [|k q IH]; [reflexivity|].
  cbn [length draws]. rewrite spawn_piece_front. cbn [bind].
  rewrite IH. reflexivity.
Qed.

Lemma draws_bag (g : Rng) :
  draws shuffle 7 [] g =
  Ok ((next_bag shuffle g).1, [], (next_bag shuffle g).2).
Proof.
  pose proof (next_bag_perm g) as Hperm. apply Permutation_length in Hperm.
  destruct (spawn_piece_refill g) as (k & rest & Hbag & Hspawn).
  rewrite Hbag in *.
  assert (Hlen : 7%nat = S (length rest)) by (cbn in Hperm; lia).
  rewrite Hlen. cbn [draws]. rewrite Hspawn. cbn [bind].
  rewrite draws_queue. reflexivity.
Qed.

Lemma draws_add (a b : nat) (q : list string) (g : Rng) :
  draws shuffle (a + b) q g =
  let* d := draws shuffle a q g in
  let '(ks, q', g') := d in
  let* d' := draws shuffle b q' g' in
  let '(ks', q'', g'') := d' in
  Ok (ks ++ ks', q'', g'').
Proof.
  revert q g. induction a as [|a IH]; intros q g.
  - cbn [Nat.add draws bind].
    destruct (draws shuffle b q g) as [[[ks' q''] g'']|e]; reflexivity.
  - cbn [Nat.add draws].
    destruct (spawn_piece shuffle q g) as [[[k q1] g1]|e]; [|reflexivity].
    cbn [bind]. rewrite IH.
    destruct (draws shuffle a q1 g1) as [[[ks q2] g2]|e]; [|reflexivity].
    cbn [bind].
    destruct (draws shuffle b q2 g2) as [[[ks' q3] g3]|e]; reflexivity.
Qed.

Lemma draws_bags (n : nat) (g : Rng) :
  draws shuffle (7 * n) [] g =
  Ok (concat (bags shuffle n g).1, [], (bags shuffle n g).2).
Proof.
  revert g. induction n as [|n IH]; intros g; [reflexivity|].
  replace (7 * S n)%nat with (7 + 7 * n)%nat by lia.
  rewrite draws_add, draws_bag. cbn [bind bags].
  destruct (next_bag shuffle g) as [bag g'] eqn:E. cbn [fst snd].
  rewrite IH. cbn [bind].
  destruct (bags shuffle n g') as [bs g'']. reflexivity.
Qed.

Lemma bags_perm (n : nat) (g : Rng) :
  length (bags shuffle n g).1 = n /\
  Forall (fun bag => bag ≡ₚ SHAPE_ORDER) (bags shuffle n g).1.
Proof.
  revert g. induction n as [|n IH]; intros g; [by split|].
  cbn [bags]. pose proof (next_bag_perm g) as Hperm.
  destruct (next_bag shuffle g) as [bag g']. specialize (IH g').
  destruct (bags shuffle n g') as [bs g'']. cbn [fst] in *.
  destruct IH as [Hlen Hall]. split; [by rewrite <- Hlen | by constructor].
Qed.





End Randomizer.

Lemma reverse_shuffle_perm (g : nat) (l : list string) :
  (reverse_shuffle g l).1 ≡ₚ l.
Proof. apply reverse_Permutation. Qed.


(** Two bags drawn with the reversing generator. *)
Example draws_two_bags :
  draws reverse_shuffle 14 [] 0%nat =
  Ok (["Z"; "T"; "S"; "O"; "L"; "J"; "I";
       "Z"; "T"; "S"; "O"; "L"; "J"; "I"], [], 2%nat).
Proof. reflexivity. Qed.

(** ** Lock-and-advance *)

Lemma clear_lines_wf (b : board) : board_wf b -> board_wf (clear_lines b).1.
Proof.
  intros [Hlen Hrows]. rewrite clear_lines_eq by assumption. cbn [fst].
  pose proof (filter_length_complement full b) as Hsum. split.
  - rewrite length_app, length_replicate. lia.
  - apply Forall_app. split.
    + apply Forall_replicate. reflexivity.
    + rewrite Forall_forall in Hrows. apply Forall_forall. intros r Hr.
      apply list_elem_of_filter in Hr as [_ Hr]. by apply Hrows.
Qed.

Lemma lock_piece_wf (b : board) (p : Tetromino) :
  board_wf b -> is_valid_position b p = Ok true ->
  exists b', lock_piece b p = Ok b' /\ board_wf b'.
Proof.
  intros Hwf Hvalid.
  destruct (valid_position_cells b p Hvalid) as (cs & Hcs & Hfree & _).
  destruct (lock_cells_spec (name p) cs b Hwf) as (b' & Hb' & Hwf' & _).
  { eapply Forall_impl; [exact Hfree|]. intros c (? & ? & _). auto. }
  exists b'. unfold lock_piece. rewrite Hcs. auto.
Qed.

Section Game.

Context {Rng : Type} (shuffle : Rng -> list string -> list string * Rng).
Hypothesis shuffle_perm : forall g l, (shuffle g l).1 ≡ₚ l.




(** ** Rotation with wall kicks *)

Lemma wall_kicks_first (b : board) (r cur : Tetromino) (pre post : list Z)
    (dx : Z) :
  Forall (fun d => is_valid_position b (moved r d 0) = Ok false) pre ->
  is_valid_position b (moved r dx 0) = Ok true ->
  wall_kicks b r cur (pre ++ dx :: post) = Ok (moved r dx 0).
Proof.
  intros Hpre Hdx. induction Hpre as [|d pre Hd _ IH]; cbn [app wall_kicks].
  - by rewrite Hdx.
  - rewrite Hd. cbn [bind]. exact IH.
Qed.

Lemma wall_kicks_none (b : board) (r cur : Tetromino) (dxs : list Z) :
  Forall (fun d => is_valid_position b (moved r d 0) = Ok false) dxs ->
  wall_kicks b r cur dxs = Ok cur.
Proof.
  induction 1 as [|d dxs Hd _ IH]; cbn [wall_kicks]; [reflexivity|].
  rewrite Hd. cbn [bind]. exact IH.
Qed.

Lemma wall_kicks_total (b : board) (r cur : Tetromino) (dxs : list Z) :
  board_wf b -> has_cells r -> exists c, wall_kicks b r cur dxs = Ok c.
Proof.
  intros Hwf Hr. induction dxs as [|d dxs IH]; cbn [wall_kicks]; [eauto|].
  destruct (is_valid_position_total b (moved r d 0) Hwf
              (has_cells_moved r d 0 Hr)) as [[|] Hv];
    rewrite Hv; cbn [bind]; eauto.
Qed.

Lemma rotated_piece_ok (p : Tetromino) (direction : Z) :
  name p ∈ SHAPE_ORDER ->
  exists r, rotated p direction = Ok r /\ piece_ok r /\
            name r = name p /\ position r = position p.
Proof.
  intros Hnm. apply dict_get_keys in Hnm as [rots Hr].
  eexists. split; [exact (rotated_eq p direction rots Hr)|].
  split; [|by split]. exists rots. cbn [name rotation]. split; [exact Hr|].
  apply shapes_rotations in Hr as [Hlen _]. apply Z.mod_pos_bound. lia.
Qed.

(** C5.  The rotate key turns the piece clockwise, and the turned piece
    becomes the current piece if it is valid.  Otherwise the current piece
    becomes the turned piece moved by the first of the offsets -1, 1, -2, 2
    that makes it valid, and stays the piece it was if none does; so when
    offset -1 is valid the new current piece is the turned piece one column
    to the left.  Nothing else of the game changes, and the event loop
    goes on. *)
Theorem rotate_key_spec (g : game Rng) (fuel : nat) :
  board_wf (g_board g) -> name (g_current_piece g) ∈ SHAPE_ORDER ->
  exists r g',
    rotated (g_current_piece g) 1 = Ok r /\
    handle_event shuffle fuel g (KEYDOWN K_UP) = Some (Ok (g', false)) /\
    (g_board g' = g_board g /\ g_queue g' = g_queue g /\
     g_rng g' = g_rng g /\ g_next_piece_name g' = g_next_piece_name g /\
     g_score g' = g_score g /\ g_lines_cleared g' = g_lines_cleared g /\
     g_level g' = g_level g /\ g_drop_interval g' = g_drop_interval g /\
     g_running g' = g_running g) /\
    KICKS = [-1; 1; -2; 2] /\
    (is_valid_position (g_board g) r = Ok true -> g_current_piece g' = r) /\
    (is_valid_position (g_board g) r <> Ok true ->
       (forall pre dx post,
          KICKS = pre ++ dx :: post ->
          Forall (fun d =>
                    is_valid_position (g_board g) (moved r d 0) = Ok false)
            pre ->
          is_valid_position (g_board g) (moved r dx 0) = Ok true ->
          g_current_piece g' = moved r dx 0) /\
       (Forall (fun d =>
                  is_valid_position (g_board g) (moved r d 0) = Ok false)
          KICKS ->
        g_current_piece g' = g_current_piece g) /\
       (is_valid_position (g_board g) (moved r (-1) 0) = Ok true ->
        g_current_piece g' = moved r (-1) 0 /\
        name (g_current_piece g') = name r /\
        rotation (g_current_piece g') = rotation r /\
        position (g_current_piece g') =
          ((position r).1 - 1, (position r).2))).
Proof.
  intros Hwf Hnm.
  destruct (rotated_piece_ok (g_current_piece g) 1 Hnm) as (r & Hr & Hok & _).
  apply piece_ok_has_cells in Hok.
  destruct (is_valid_position_total (g_board g) r Hwf Hok) as [v Hv].
  destruct (wall_kicks_total (g_board g) r (g_current_piece g) KICKS Hwf Hok)
    as [kicked Hkicked].
  exists r, (set_current_piece g (if v then r else kicked)).
  split; [exact Hr|]. split.
  { cbn [handle_event]. rewrite Hr. cbn [bind]. rewrite Hv. cbn [bind].
    destruct v; [reflexivity|]. rewrite Hkicked. reflexivity. }
  split; [by repeat split|].
  change (g_current_piece (set_current_piece g (if v then r else kicked)))
    with (if v then r else kicked).
  split; [reflexivity|]. split.
  { intros Hvalid. rewrite Hvalid in Hv. by injection Hv as <-. }
  intros Hinvalid. destruct v; [congruence|]. split; [|split].
  - intros pre dx post Hsplit Hpre Hdx. rewrite Hsplit in Hkicked.
    rewrite (wall_kicks_first _ _ _ pre post dx Hpre Hdx) in Hkicked.
    by injection Hkicked as <-.
  - intros Hnone. rewrite (wall_kicks_none _ _ _ KICKS Hnone) in Hkicked.
    by injection Hkicked as <-.
  - intros Hleft.
    rewrite (wall_kicks_first _ _ _ [] [1; -2; 2] (-1)) in Hkicked
      by (assumption || constructor).
    injection Hkicked as <-.
    destruct (moved_position r (-1) 0) as (-> & -> & ->).
    rewrite Z.add_0_r. auto.
Qed.

End Game.

(** ** A game to run the theorems on *)

Example init_game_demo : init_game reverse_shuffle 0%nat = Ok demo_game.
Proof. reflexivity. Qed.



(** A hard drop at the start of the demo game: the Z piece lands on the
    floor, nothing is cleared, T becomes the piece and S the lookahead. *)
Example hard_drop_demo :
  handle_event reverse_shuffle 30 demo_game (KEYDOWN K_SPACE) =
  Some (Ok (mkGame
              (replicate 18 empty_row ++
               [ [None; None; None; Some "Z"; Some "Z"; None; None; None;
                  None; None];
                 [None; None; None; None; Some "Z"; Some "Z"; None; None;
                  None; None] ])
              ["O"; "L"; "J"; "I"] 1%nat (new_piece "T") "S" 0 0 1 700 true,
            false)).
Proof. reflexivity. Qed.

Lemma rotate_key_spec_witness :
  board_wf (g_board kick_game) /\
  name (g_current_piece kick_game) ∈ SHAPE_ORDER /\
  exists g',
    handle_event reverse_shuffle 0 kick_game (KEYDOWN K_UP) =
      Some (Ok (g', false)) /\
    is_valid_position (g_board kick_game) (mkTetromino "I" 0 (7, 5)) =
      Ok false /\
    g_current_piece g' = mkTetromino "I" 0 (6, 5) /\
    g_board g' = g_board kick_game /\ g_queue g' = g_queue kick_game /\
    g_rng g' = g_rng kick_game /\
    g_next_piece_name g' = g_next_piece_name kick_game /\
    g_score g' = g_score kick_game /\
    g_lines_cleared g' = g_lines_cleared kick_game /\
    g_level g' = g_level kick_game /\
    g_drop_interval g' = g_drop_interval kick_game /\
    g_running g' = g_running kick_game.
Proof.
  assert (Hwf : board_wf (g_board kick_game)) by exact create_board_wf.
  assert (Hnm : name (g_current_piece kick_game) ∈ SHAPE_ORDER).
  { apply dict_get_keys. eexists. reflexivity. }
  split; [exact Hwf|]. split; [exact Hnm|].
  destruct (rotate_key_spec reverse_shuffle kick_game 0%nat Hwf Hnm)
    as (r & g' & Hr & Hev & Hrest & _ & _ & Hkick).
  change (Ok (mkTetromino "I" 0 (7, 5)) = Ok r) in Hr.
  injection Hr as <-. exists g'. split; [exact Hev|]. split; [reflexivity|].
  split; [|exact Hrest].
  destruct Hkick as (_ & _ & Hleft); [discriminate|].
  destruct Hleft as [Hleft _]; [reflexivity|]. exact Hleft.
Defined.

(** An I piece standing upright against the right wall: turned clockwise
    it lies flat and sticks out of the grid by one column; one column to
    the left it fits, and that is where the rotate key puts it. *)
Example wall_kick_I_right_wall :
  let g := set_current_piece demo_game (mkTetromino "I" 1 (7, 5)) in
  is_valid_position (g_board g) (g_current_piece g) = Ok true /\
  rotated (g_current_piece g) 1 = Ok (mkTetromino "I" 0 (7, 5)) /\
  is_valid_position (g_board g) (mkTetromino "I" 0 (7, 5)) = Ok false /\
  is_valid_position (g_board g) (mkTetromino "I" 0 (6, 5)) = Ok true /\
  handle_event reverse_shuffle 0 g (KEYDOWN K_UP) =
  Some (Ok (set_current_piece g (mkTetromino "I" 0 (6, 5)), false)).
Proof. repeat split. Qed.

(** The same against the left wall: the flat piece sticks out by two
    columns, offsets -1, 1 and -2 do not help, and offset 2 does. *)
Example wall_kick_I_left_wall :
  let g := set_current_piece demo_game (mkTetromino "I" 1 (-2, 5)) in
  is_valid_position (g_board g) (g_current_piece g) = Ok true /\
  rotated (g_current_piece g) 1 = Ok (mkTetromino "I" 0 (-2, 5)) /\
  is_valid_position (g_board g) (mkTetromino "I" 0 (-2, 5)) = Ok false /\
  is_valid_position (g_board g) (mkTetromino "I" 0 (-3, 5)) = Ok false /\
  is_valid_position (g_board g) (mkTetromino "I" 0 (-1, 5)) = Ok false /\
  is_valid_position (g_board g) (mkTetromino "I" 0 (-4, 5)) = Ok false /\
  handle_event reverse_shuffle 0 g (KEYDOWN K_UP) =
  Some (Ok (set_current_piece g (mkTetromino "I" 0 (0, 5)), false)).
Proof. repeat split. Qed.

(** ** Row objects: the functions on values are the functions on the heap *)

Lemma store_update_eq (f : nat -> list (option string)) (a : nat) (r : row) :
  Store.update f a r a = r.
Proof. unfold Store.update. by rewrite decide_True. Qed.

Lemma store_update_ne (f : nat -> list (option string)) (a b : nat) (r : row) :
  a <> b -> Store.update f a r b = f b.
Proof. intros H. unfold Store.update. by rewrite decide_False. Qed.

Lemma store_getitem_read (h : Store.heap) (refs : list nat) (i : Z) :
  Py.getitem (Store.read h refs) i =
  let* a := Py.getitem refs i in Ok (Store.rows h a).
Proof.
  unfold Py.getitem, Store.read. rewrite length_fmap.
  destruct (Py.index (length refs) i) as [n|e]; cbn [bind]; [|reflexivity].
  rewrite list_lookup_fmap. by destruct (refs !! n).
Qed.

Lemma store_read_write (h : Store.heap) (refs : list nat) (i a : nat) (r : row) :
  NoDup refs -> refs !! i = Some a ->
  Store.read (Store.write h a r) refs = <[i := r]> (Store.read h refs).
Proof.
  intros Hnd Hi. apply list_eq. intros j. unfold Store.read, Store.write.
  cbn [Store.rows]. rewrite list_lookup_fmap.
  destruct (decide (j = i)) as [->|Hne].
  - rewrite list_lookup_insert_eq
      by (rewrite length_fmap; by eapply lookup_lt_Some).
    rewrite Hi. cbn. by rewrite store_update_eq.
  - rewrite list_lookup_insert_ne by done. rewrite list_lookup_fmap.
    destruct (refs !! j) as [a'|] eqn:Hj; [|reflexivity]. cbn.
    rewrite store_update_ne; [reflexivity|].
    intros ->. apply Hne. by eapply NoDup_lookup.
Qed.

(** Locking on the heap and locking on values go the same way, errors
    included, when the rows are distinct objects. *)
Lemma store_lock_cells (refs : list nat) (nm : string) (cs : list (Z * Z))
    (h : Store.heap) :
  NoDup refs ->
  lock_cells (Store.read h refs) nm cs =
  let* h' := Store.lock_cells h refs nm cs in Ok (Store.read h' refs).
Proof.
  intros Hnd. revert h. induction cs as [|[x y] cs IH]; intros h;
    [reflexivity|].
  cbn [lock_cells Store.lock_cells].
  destruct ((0 <=? y) && (y <? GRID_HEIGHT)) eqn:Hy; [|apply IH].
  apply andb_prop in Hy as [Hy0 _]. apply Z.leb_le in Hy0.
  rewrite store_getitem_read.
  destruct (Py.getitem refs y) as [a|e] eqn:Ha; cbn [bind]; [|reflexivity].
  destruct (Py.setitem (Store.rows h a) x (Some nm)) as [r'|e];
    cbn [bind]; [|reflexivity].
  apply getitem_nonneg in Ha; [|assumption].
  rewrite setitem_nonneg.
  - cbn [bind]. rewrite <- (store_read_write h refs _ a r' Hnd Ha). apply IH.
  - unfold Store.read. rewrite length_fmap. apply lookup_lt_Some in Ha. lia.
Qed.

Lemma store_lock_piece (refs : list nat) (p : Tetromino) (h : Store.heap) :
  NoDup refs ->
  lock_piece (Store.read h refs) p =
  let* h' := Store.lock_piece h refs p in Ok (Store.read h' refs).
Proof.
  intros Hnd. unfold lock_piece, Store.lock_piece.
  destruct (cells p) as [cs|e]; cbn [bind]; [|reflexivity].
  by apply store_lock_cells.
Qed.

Lemma store_lock_cells_next (refs : list nat) (nm : string)
    (cs : list (Z * Z)) (h h' : Store.heap) :
  Store.lock_cells h refs nm cs = Ok h' -> Store.next h' = Store.next h.
Proof.
  revert h. induction cs as [|[x y] cs IH]; intros h; cbn [Store.lock_cells].
  - by intros [= ->].
  - destruct ((0 <=? y) && (y <? GRID_HEIGHT)); [|apply IH].
    destruct (Py.getitem refs y) as [a|e]; cbn [bind]; [|discriminate].
    destruct (Py.setitem (Store.rows h a) x (Some nm)) as [r'|e];
      cbn [bind]; [|discriminate].
    intros H. by rewrite (IH _ H).
Qed.

Lemma store_read_alloc (h : Store.heap) (refs : list nat) (r : row) :
  Store.allocated h refs ->
  Store.read (Store.alloc h r).2 refs = Store.read h refs.
Proof.
  intros Hall. unfold Store.read, Store.alloc. cbn [snd Store.rows].
  apply list_fmap_ext. intros i a Ha. unfold Store.allocated in Hall.
  rewrite Forall_lookup in Hall. specialize (Hall i a Ha).
  apply store_update_ne. lia.
Qed.

Lemma store_alloc_fresh (h : Store.heap) (refs : list nat) (r : row) :
  NoDup refs -> Store.allocated h refs ->
  NoDup ((Store.alloc h r).1 :: refs) /\
  Store.allocated (Store.alloc h r).2 ((Store.alloc h r).1 :: refs) /\
  Store.read (Store.alloc h r).2 ((Store.alloc h r).1 :: refs) =
    r :: Store.read h refs.
Proof.
  intros Hnd Hall. split; [|split].
  - apply NoDup_cons. split; [|assumption]. cbn [Store.alloc fst].
    intros Hin. unfold Store.allocated in Hall. rewrite Forall_forall in Hall.
    specialize (Hall _ Hin). lia.
  - unfold Store.allocated in *. cbn [Store.alloc fst snd Store.next].
    constructor; [lia|]. eapply Forall_impl; [exact Hall|].
    cbn. intros; lia.
  - change (Store.read (Store.alloc h r).2 ((Store.alloc h r).1 :: refs))
      with (Store.rows (Store.alloc h r).2 (Store.alloc h r).1 ::
            Store.read (Store.alloc h r).2 refs).
    rewrite store_read_alloc by assumption. f_equal.
    cbn [Store.alloc fst snd Store.rows]. apply store_update_eq.
Qed.

Lemma store_refill_rows (fuel : nat) (h : Store.heap) (remaining : list nat) :
  NoDup remaining -> Store.allocated h remaining ->
  Store.read (Store.refill_rows fuel h remaining).2
    (Store.refill_rows fuel h remaining).1 =
    refill_rows fuel (Store.read h remaining) /\
  NoDup (Store.refill_rows fuel h remaining).1 /\
  Store.allocated (Store.refill_rows fuel h remaining).2
    (Store.refill_rows fuel h remaining).1.
Proof.
  revert h remaining. induction fuel as [|fuel IH]; intros h rem Hnd Hall;
    cbn [Store.refill_rows refill_rows]; [by auto|].
  unfold Store.read at 2. rewrite length_fmap.
  destruct (Z.of_nat (length rem) <? GRID_HEIGHT); [|by auto].
  destruct (store_alloc_fresh h rem empty_row Hnd Hall) as (Hnd' & Hall' & Hr).
  destruct (Store.alloc h empty_row) as [a h1]. cbn [fst snd] in *.
  rewrite <- Hr. by apply IH.
Qed.

Lemma store_read_filter (h : Store.heap) (refs : list nat) :
  Store.read h (filter (fun a : nat => None ∈ Store.rows h a) refs) =
  filter (fun r : row => None ∈ r) (Store.read h refs).
Proof.
  unfold Store.read. induction refs as [|a refs IH]; [reflexivity|].
  rewrite fmap_cons, !filter_cons.
  destruct (decide (None ∈ Store.rows h a)); [rewrite fmap_cons|];
    by rewrite IH.
Qed.

(** Clearing on the heap is clearing on values, and the rows of the board
    it leaves are distinct objects again. *)
Lemma store_clear_lines (h : Store.heap) (refs : list nat) :
  NoDup refs -> Store.allocated h refs ->
  (Store.read (Store.clear_lines h refs).1.2 (Store.clear_lines h refs).1.1,
   (Store.clear_lines h refs).2) = clear_lines (Store.read h refs) /\
  NoDup (Store.clear_lines h refs).1.1 /\
  Store.allocated (Store.clear_lines h refs).1.2 (Store.clear_lines h refs).1.1.
Proof.
  intros Hnd Hall. unfold Store.clear_lines, clear_lines. cbn [fst snd].
  set (rem := filter (fun a : nat => None ∈ Store.rows h a) refs).
  assert (Hnd' : NoDup rem) by (by apply NoDup_filter).
  assert (Hall' : Store.allocated h rem).
  { unfold Store.allocated in *. rewrite Forall_forall in Hall.
    apply Forall_forall. intros a Ha. apply Hall.
    by apply list_elem_of_filter in Ha as [_ Ha]. }
  destruct (store_refill_rows (Z.to_nat GRID_HEIGHT) h rem Hnd' Hall')
    as (Hread & Hnd'' & Hall'').
  split; [|by split]. rewrite Hread. unfold rem.
  rewrite store_read_filter. do 3 f_equal.
  rewrite <- store_read_filter. unfold Store.read. by rewrite length_fmap.
Qed.

(** The board that [create_board] allocates is [create_board] as a value,
    and its rows are distinct objects. *)
Lemma store_alloc_rows (n : nat) (h : Store.heap) :
  Store.read (Store.alloc_rows n h).2 (Store.alloc_rows n h).1 =
    replicate n empty_row /\
  NoDup (Store.alloc_rows n h).1 /\
  Store.allocated (Store.alloc_rows n h).2 (Store.alloc_rows n h).1 /\
  Forall (fun a : nat => (Store.next h <= a)%nat) (Store.alloc_rows n h).1 /\
  (Store.next h <= Store.next (Store.alloc_rows n h).2)%nat /\
  (forall a : nat, (a < Store.next h)%nat ->
     Store.rows (Store.alloc_rows n h).2 a = Store.rows h a).
Proof.
  revert h. induction n as [|n IH]; intros h; cbn [Store.alloc_rows].
  - cbn [fst snd]. repeat split; (constructor || lia).
  - unfold Store.alloc.
    set (h1 := Store.mkHeap (Store.update (Store.rows h) (Store.next h) empty_row)
                 (S (Store.next h))).
    destruct (IH h1) as (Hread & Hnd & Hall & Hge & Hnext & Hold).
    destruct (Store.alloc_rows n h1) as [refs h2]. cbn [fst snd] in *.
    cbn [Store.next h1] in Hge, Hnext, Hold.
    split; [|split; [|split; [|split; [|split]]]].
    + cbn [replicate]. unfold Store.read in *. rewrite fmap_cons, Hread.
      f_equal. rewrite Hold by lia. cbn. apply store_update_eq.
    + apply NoDup_cons. split; [|assumption]. intros Hin.
      rewrite Forall_forall in Hge. specialize (Hge _ Hin). lia.
    + unfold Store.allocated in *. constructor; [lia | assumption].
    + constructor; [lia|]. eapply Forall_impl; [exact Hge|]. cbn. intros; lia.
    + lia.
    + intros b Hb. rewrite Hold by lia. cbn.
      apply store_update_ne. lia.
Qed.

Lemma store_create_board (h : Store.heap) :
  Store.read (Store.create_board h).2 (Store.create_board h).1 = create_board /\
  NoDup (Store.create_board h).1 /\
  Store.allocated (Store.create_board h).2 (Store.create_board h).1.
Proof.
  destruct (store_alloc_rows (Z.to_nat GRID_HEIGHT) h) as (H1 & H2 & H3 & _).
  by repeat split.
Qed.

(** Without distinct rows the two differ: on a board made of one row
    object twenty times, locking a piece marks every row. *)
Example store_aliased_rows :
  let h := Store.mkHeap (fun _ => empty_row) 1 in
  let refs := replicate 20 0%nat in
  Store.read h refs = create_board /\
  exists h' b',
    Store.lock_piece h refs (new_piece "O") = Ok h' /\
    lock_piece create_board (new_piece "O") = Ok b' /\
    board_at b' 4 5 = Some None /\
    board_at (Store.read h' refs) 4 5 = Some (Some "O").
Proof. split; [reflexivity|]. do 2 eexists. repeat split. Qed.

(** * Further properties of the code *)

(** ** Moving and turning pieces *)

(** X1.  [moved] shifts every cell of the piece by [(dx, dy)] and fails to
    have cells exactly when the piece itself does; two moves in a row are
    one move by the sum, and a move by nothing gives the piece back. *)
Theorem moved_cells (p : Tetromino) (dx dy : Z) :
  cells (moved p dx dy) =
    (let* cs := cells p in
     Ok (map (fun c : Z * Z => (c.1 + dx, c.2 + dy)) cs)) /\
  (forall dx' dy',
     moved (moved p dx dy) dx' dy' = moved p (dx + dx') (dy + dy')) /\
  moved p 0 0 = p.
Proof.
  destruct p as [nm r [px py]]. split; [|split].
  - unfold cells, moved. cbn [name rotation position].
    destruct (Py.dict_get SHAPES nm) as [rots|e]; cbn [bind]; [|reflexivity].
    destruct (Py.getitem rots r) as [offs|e]; cbn [bind]; [|reflexivity].
    f_equal. rewrite map_map. apply map_ext. intros [ox oy]. cbn [fst snd].
    f_equal; lia.
  - intros dx' dy'. unfold moved. cbn [name rotation position].
    by rewrite !Z.add_assoc.
  - apply moved_0.
Qed.

(** X2.  Turning a piece of an unknown kind raises [KeyError].  Turning a
    piece of a known kind never fails and gives a piece of the same kind and
    anchor whose rotation index is one of its kind's, whatever the index
    was before; turning a well-formed piece by [d] and then by [-d] gives it
    back. *)
Theorem rotated_round_trip (p : Tetromino) (d : Z) :
  (name p ∉ SHAPE_ORDER -> rotated p d = Raise KeyError) /\
  (name p ∈ SHAPE_ORDER ->
   exists r,
     rotated p d = Ok r /\ piece_ok r /\ name r = name p /\
     position r = position p /\
     (piece_ok p -> rotated r (- d) = Ok p)).
Proof.
  split.
  - intros H. unfold rotated. by rewrite (dict_get_unknown SHAPES (name p) H).
  - intros Hnm.
    destruct (rotated_piece_ok p d Hnm) as (r & Hr & Hok & Hname & Hpos).
    exists r. split; [exact Hr|]. split; [exact Hok|]. split; [exact Hname|].
    split; [exact Hpos|]. intros (rots & Hrots & Hi).
    rewrite (rotated_eq p d rots Hrots) in Hr. injection Hr as <-.
    rewrite (rotated_eq _ (- d) rots) by exact Hrots.
    cbn [name rotation position]. destruct p as [nm r0 pos].
    cbn [name rotation position] in *. do 2 f_equal.
    rewrite Zplus_mod_idemp_l.
    replace (r0 + d + - d) with r0 by lia. apply Z.mod_small. lia.
Qed.

Lemma rotated_round_trip_witness :
  exists r,
    rotated (new_piece "T") 1 = Ok r /\ piece_ok r /\
    name r = name (new_piece "T") /\
    position r = position (new_piece "T") /\
    (piece_ok (new_piece "T") -> rotated r (- 1) = Ok (new_piece "T")).
Proof.
  apply (proj2 (rotated_round_trip (new_piece "T") 1)).
  apply dict_get_keys. eexists. reflexivity.
Defined.

Lemma SHAPES_NoDup : Forall (fun kv => Forall NoDup kv.2) SHAPES.
Proof.
  unfold SHAPES.
  repeat first [ apply Forall_cons_2 | apply Forall_nil_2 ]; cbn [snd];
    repeat first [ apply Forall_cons_2 | apply Forall_nil_2 ];
    (eapply bool_decide_unpack; vm_compute; exact I).
Qed.

(** X3.  A piece of a known kind with a rotation index of its kind occupies
    exactly four cells, no two the same, all inside the box of four by four
    cells whose top left corner is the piece's anchor. *)
Theorem cells_four_in_box (p : Tetromino) :
  piece_ok p ->
  exists cs,
    cells p = Ok cs /\ length cs = 4%nat /\ NoDup cs /\
    Forall (fun c : Z * Z =>
              (position p).1 <= c.1 <= (position p).1 + 3 /\
              (position p).2 <= c.2 <= (position p).2 + 3) cs.
Proof.
  intros Hok. pose proof Hok as (rots & Hr & Hi).
  destruct (getitem_in_range rots (rotation p) Hi) as [offs Ho].
  assert (Hc : cells p =
               Ok (map (fun o : Z * Z => ((position p).1 + o.1,
                                           (position p).2 + o.2)) offs)).
  { unfold cells. rewrite Hr. cbn [bind]. rewrite Ho. cbn [bind].
    by destruct (position p). }
  assert (Hin : offs ∈ rots) by (eapply getitem_elem_of, Ho).
  assert (Hstate : state_ok offs).
  { apply shapes_rotations in Hr as [_ Hall]. rewrite Forall_forall in Hall.
    by apply Hall. }
  assert (Hnd : NoDup offs).
  { pose proof SHAPES_NoDup as Hall. rewrite Forall_forall in Hall.
    specialize (Hall _ (dict_get_elem_of _ _ _ Hr)). cbn [snd] in Hall.
    rewrite Forall_forall in Hall. by apply Hall. }
  destruct Hstate as [Hlen Hbox].
  eexists. split; [exact Hc|]. split; [by rewrite length_map|]. split.
  - apply (NoDup_fmap_2_strong _ offs); [|exact Hnd].
    intros [x1 y1] [x2 y2] _ _ [= H1 H2]. f_equal; lia.
  - apply Forall_map. eapply Forall_impl; [exact Hbox|].
    intros [ox oy]. cbn [fst snd]. lia.
Qed.

Lemma cells_four_in_box_witness :
  exists cs,
    cells (new_piece "S") = Ok cs /\ length cs = 4%nat /\ NoDup cs /\
    Forall (fun c : Z * Z =>
              (position (new_piece "S")).1 <= c.1
                <= (position (new_piece "S")).1 + 3 /\
              (position (new_piece "S")).2 <= c.2
                <= (position (new_piece "S")).2 + 3) cs.
Proof.
  apply (cells_four_in_box (new_piece "S")). apply piece_ok_new.
  apply dict_get_keys. eexists. reflexivity.
Defined.

(** ** The empty board *)

Lemma create_board_at (x y : Z) :
  0 <= x < GRID_WIDTH -> 0 <= y < GRID_HEIGHT ->
  board_at create_board x y = Some None.
Proof.
  intros Hx Hy. unfold board_at, create_board, empty_row.
  unfold GRID_WIDTH, GRID_HEIGHT in *.
  rewrite lookup_replicate_2 by lia. cbn.
  apply lookup_replicate_2. lia.
Qed.

Lemma empty_row_not_full : ~ full empty_row.
Proof. intros H. apply H. apply list_elem_of_here. Qed.

(** X4.  [create_board] makes a board of 20 rows of 10 empty cells.  A
    piece is valid on it exactly when none of its cells is left of, right
    of or below the grid; the piece [Tetromino(k)] that the game spawns is
    valid on it for each of the seven kinds; and [clear_lines] finds
    nothing to clear on it. *)
Theorem create_board_empty :
  board_wf create_board /\ cells_ok create_board /\
  (forall x y, 0 <= x < GRID_WIDTH -> 0 <= y < GRID_HEIGHT ->
     board_at create_board x y = Some None) /\
  (forall p cs, cells p = Ok cs ->
     is_valid_position create_board p = Ok true <->
     Forall (fun c => ~ out_of_grid c) cs) /\
  (forall k, k ∈ SHAPE_ORDER ->
     is_valid_position create_board (new_piece k) = Ok true) /\
  clear_lines create_board = (create_board, 0).
Proof.
  split; [exact create_board_wf|]. split.
  { unfold cells_ok, create_board, empty_row.
    apply Forall_replicate, Forall_replicate. exact I. }
  split; [exact create_board_at|]. split; [|split; [|reflexivity]].
  - intros p cs Hcs. unfold is_valid_position. rewrite Hcs. cbn [bind].
    rewrite is_valid_cells_true. apply Forall_iff. intros [x y].
    unfold cell_free, out_of_grid. cbn [fst snd]. split.
    + intros (Hx & Hy & _). lia.
    + intros H. split; [lia|]. split; [lia|].
      destruct (decide (y < 0)) as [|Hy]; [by left|]. right.
      apply create_board_at; lia.
  - intros k. unfold SHAPE_ORDER, Py.keys, SHAPES. cbn [fmap list_fmap fst].
    rewrite !elem_of_cons, elem_of_nil.
    intros [->|[->|[->|[->|[->|[->|[->|[]]]]]]]]; reflexivity.
Qed.

(** ** Locking, then testing again *)

Lemma lock_cells_above (b : board) (nm : string) (cs : list (Z * Z)) :
  Forall (fun c : Z * Z => c.2 < 0) cs -> lock_cells b nm cs = Ok b.
Proof.
  induction 1 as [|[x y] cs Hy _ IH]; [reflexivity|].
  cbn [lock_cells]. cbn [snd] in Hy.
  destruct (Z.leb_spec 0 y); [lia|]. exact IH.
Qed.

(** X5.  Once a validly placed piece is locked, every piece that shares
    with it a cell on or below the top row is invalid on the new board,
    the locked piece itself included.  A piece that lies wholly above the
    top row is locked without any effect on the board. *)
Theorem lock_piece_blocks (b : board) (p : Tetromino) :
  board_wf b -> is_valid_position b p = Ok true ->
  exists b' cs,
    lock_piece b p = Ok b' /\ cells p = Ok cs /\
    (forall q csq,
       cells q = Ok csq ->
       (exists c, c ∈ cs /\ c ∈ csq /\ 0 <= c.2) ->
       is_valid_position b' q = Ok false) /\
    (Exists (fun c : Z * Z => 0 <= c.2) cs ->
     is_valid_position b' p = Ok false) /\
    (Forall (fun c : Z * Z => c.2 < 0) cs -> b' = b).
Proof.
  intros Hwf Hvalid.
  destruct (valid_position_cells b p Hvalid) as (cs & Hcs & Hfree & _).
  destruct (lock_cells_spec (name p) cs b Hwf) as (b' & Hb' & Hwf' & Hat & _).
  { eapply Forall_impl; [exact Hfree|]. intros c (? & ? & _). auto. }
  assert (Hblock : forall q csq,
            cells q = Ok csq ->
            (exists c, c ∈ cs /\ c ∈ csq /\ 0 <= c.2) ->
            is_valid_position b' q = Ok false).
  { intros q csq Hq ([x y] & Hin & Hinq & Hy). cbn [snd] in Hy.
    unfold is_valid_position. rewrite Hq. cbn [bind].
    destruct (is_valid_cells_total b' csq Hwf') as [[|] Hv]; [|exact Hv].
    exfalso. apply is_valid_cells_true in Hv.
    rewrite Forall_forall in Hv, Hfree.
    destruct (Hv _ Hinq) as (Hx & Hy' & Hempty). cbn [fst snd] in *.
    destruct Hempty as [?|Hempty]; [lia|].
    rewrite Hat in Hempty by lia. rewrite decide_True in Hempty by exact Hin.
    discriminate. }
  exists b', cs. unfold lock_piece. rewrite Hcs. cbn [bind].
  split; [exact Hb'|]. split; [reflexivity|]. split; [exact Hblock|]. split.
  - intros Hex. apply Exists_exists in Hex as (c & Hin & Hc).
    apply (Hblock p cs Hcs). by exists c.
  - intros Habove. rewrite lock_cells_above in Hb' by exact Habove.
    by injection Hb'.
Qed.

Lemma lock_piece_blocks_witness :
  exists b' cs,
    lock_piece create_board (new_piece "L") = Ok b' /\
    cells (new_piece "L") = Ok cs /\
    (forall q csq,
       cells q = Ok csq ->
       (exists c, c ∈ cs /\ c ∈ csq /\ 0 <= c.2) ->
       is_valid_position b' q = Ok false) /\
    (Exists (fun c : Z * Z => 0 <= c.2) cs ->
     is_valid_position b' (new_piece "L") = Ok false) /\
    (Forall (fun c : Z * Z => c.2 < 0) cs -> b' = create_board).
Proof.
  apply (lock_piece_blocks create_board (new_piece "L")).
  - exact create_board_wf.
  - reflexivity.
Defined.

(** ** More on line clearing *)

(** What [clear_lines] computes on a list of rows of any length. *)
Lemma clear_lines_general (b : board) :
  clear_lines b =
  (replicate (Z.to_nat GRID_HEIGHT -
              length (filter (fun r : row => ~ full r) b)) empty_row ++
     filter (fun r : row => ~ full r) b,
   GRID_HEIGHT - Z.of_nat (length (filter (fun r : row => ~ full r) b))).
Proof.
  unfold clear_lines. rewrite refill_rows_enough by lia.
  by rewrite filter_not_full.
Qed.

(** X6.  After [clear_lines] no row of the board is full, so clearing a
    second time changes nothing and returns 0; and on a board without a
    full row the first clearing already changes nothing. *)
Theorem clear_lines_idempotent (b : board) :
  length b = Z.to_nat GRID_HEIGHT ->
  Forall (fun r : row => ~ full r) (clear_lines b).1 /\
  clear_lines (clear_lines b).1 = ((clear_lines b).1, 0) /\
  (Forall (fun r : row => ~ full r) b -> clear_lines b = (b, 0)).
Proof.
  intros Hlen.
  assert (Hsame : forall b0 : board,
            length b0 = Z.to_nat GRID_HEIGHT ->
            Forall (fun r : row => ~ full r) b0 -> clear_lines b0 = (b0, 0)).
  { intros b0 Hlen0 Hnone. rewrite clear_lines_general.
    rewrite filter_Forall_id by exact Hnone. rewrite Hlen0.
    rewrite Nat.sub_diag. reflexivity. }
  assert (Hnone : Forall (fun r : row => ~ full r) (clear_lines b).1).
  { rewrite clear_lines_general. cbn [fst]. apply Forall_app. split.
    - apply Forall_replicate. exact empty_row_not_full.
    - apply Forall_forall. intros r Hr.
      by apply list_elem_of_filter in Hr as [Hr _]. }
  split; [exact Hnone|]. split; [|by apply Hsame].
  apply Hsame; [|exact Hnone].
  rewrite clear_lines_eq by exact Hlen. cbn [fst].
  pose proof (filter_length_complement full b) as Hsum.
  rewrite length_app, length_replicate. lia.
Qed.

Lemma clear_lines_idempotent_witness :
  Forall (fun r : row => ~ full r) (clear_lines create_board).1 /\
  clear_lines (clear_lines create_board).1 = ((clear_lines create_board).1, 0) /\
  (Forall (fun r : row => ~ full r) create_board ->
   clear_lines create_board = (create_board, 0)).
Proof. apply (clear_lines_idempotent create_board). reflexivity. Defined.

(** X7.  [clear_lines] keeps a board 20 rows of 10 cells, and keeps every
    cell empty or one of the seven kinds; each row it leaves is an empty
    row or a row of the old board that was not full, so that it never
    makes an occupied cell. *)
Theorem clear_lines_invariants (b : board) :
  board_wf b ->
  board_wf (clear_lines b).1 /\
  (cells_ok b -> cells_ok (clear_lines b).1) /\
  (forall r : row,
     r ∈ (clear_lines b).1 -> r = empty_row \/ (r ∈ b /\ ~ full r)).
Proof.
  intros Hwf. split; [by apply clear_lines_wf|].
  assert (Hrows : forall r : row,
            r ∈ (clear_lines b).1 -> r = empty_row \/ (r ∈ b /\ ~ full r)).
  { intros r. rewrite clear_lines_general. cbn [fst].
    rewrite elem_of_app. intros [Hr|Hr].
    - left. by apply elem_of_replicate in Hr as [-> _].
    - right. apply list_elem_of_filter in Hr. tauto. }
  split; [|exact Hrows].
  intros Hok. unfold cells_ok in *. apply Forall_forall. intros r Hr.
  destruct (Hrows r Hr) as [->|[Hin _]].
  - apply Forall_replicate. exact I.
  - rewrite Forall_forall in Hok. by apply Hok.
Qed.

Lemma clear_lines_invariants_witness :
  board_wf (clear_lines create_board).1 /\
  (cells_ok create_board -> cells_ok (clear_lines create_board).1) /\
  (forall r : row,
     r ∈ (clear_lines create_board).1 ->
     r = empty_row \/ (r ∈ create_board /\ ~ full r)).
Proof. apply (clear_lines_invariants create_board). exact create_board_wf. Defined.

(** X8.  On a list of rows of any length [clear_lines] returns 20 minus the
    number of rows that are not full: the rows missing from a short board
    count as cleared (the empty list gives the empty board and 20), and a
    board with more than 20 rows that are not full gives a negative count
    and is not padded. *)
Theorem clear_lines_any_height (b : board) :
  (clear_lines b).2 =
    GRID_HEIGHT - Z.of_nat (length (filter (fun r : row => ~ full r) b)) /\
  length (clear_lines b).1 =
    Nat.max (Z.to_nat GRID_HEIGHT)
      (length (filter (fun r : row => ~ full r) b)) /\
  clear_lines [] = (create_board, 20) /\
  ((Z.to_nat GRID_HEIGHT < length (filter (fun r : row => ~ full r) b))%nat ->
   (clear_lines b).2 < 0 /\
   (clear_lines b).1 = filter (fun r : row => ~ full r) b).
Proof.
  rewrite clear_lines_general. cbn [fst snd].
  split; [reflexivity|]. split; [|split; [reflexivity|]].
  - rewrite length_app, length_replicate. lia.
  - intros Hlong. split; [unfold GRID_HEIGHT in *; lia|].
    replace (Z.to_nat GRID_HEIGHT -
             length (filter (fun r : row => ~ full r) b))%nat
      with 0%nat by lia.
    reflexivity.
Qed.

(** ** More on scoring *)

Lemma score_delta_bounds (cleared : Z) :
  0 <= score_delta_spec cleared <= 800.
Proof. unfold score_delta_spec. zbool; lia. Qed.

(** X9.  One call of [update_level_and_score] never lowers the score and
    raises it by 800 at most; it never lowers the line total when the count
    is not negative; the level it returns is at least 1, is one more than
    the tens of the line total when that is not negative, and grows with
    the line total. *)
Theorem update_level_and_score_monotone (score lines_cleared cleared_now : Z) :
  score <= (update_level_and_score score lines_cleared cleared_now).1.1
        <= score + 800 /\
  (0 <= cleared_now ->
   lines_cleared <=
   (update_level_and_score score lines_cleared cleared_now).1.2) /\
  1 <= (update_level_and_score score lines_cleared cleared_now).2 /\
  (0 <= lines_cleared + cleared_now ->
   (update_level_and_score score lines_cleared cleared_now).2 =
   (lines_cleared + cleared_now) / 10 + 1) /\
  (forall score' lines' cleared',
     lines_cleared + cleared_now <= lines' + cleared' ->
     (update_level_and_score score lines_cleared cleared_now).2 <=
     (update_level_and_score score' lines' cleared').2).
Proof.
  unfold update_level_and_score. cbn [fst snd].
  rewrite scoring_table_lookup.
  pose proof (score_delta_bounds cleared_now) as Hd.
  split; [lia|]. split; [lia|]. split; [lia|]. split.
  - intros H. pose proof (Z.div_pos (lines_cleared + cleared_now) 10 H).
    lia.
  - intros score' lines' cleared' Hle.
    pose proof (Z.div_le_mono _ _ 10 ltac:(lia) Hle). lia.
Qed.

(** X10.  The drop interval is 700 ms at level 1, shrinks by 60 ms per
    level up to level 11, is 100 ms from level 11 on, and never grows
    with the level. *)
Theorem calculate_drop_interval_levels (level : Z) :
  calculate_drop_interval 1 = 700 /\
  (1 <= level <= 11 -> calculate_drop_interval level = 760 - 60 * level) /\
  (11 <= level -> calculate_drop_interval level = 100) /\
  (1 <= level -> 100 <= calculate_drop_interval level <= 700) /\
  (forall level', level <= level' ->
     calculate_drop_interval level' <= calculate_drop_interval level).
Proof.
  unfold calculate_drop_interval. split; [reflexivity|].
  repeat split; intros; lia.
Qed.

(** ** A lock clears at most four rows *)

Lemma filter_insert_length {A : Type} (P : A -> Prop)
    `{!forall x, Decision (P x)} (l : list A) (i : nat) (x : A) :
  (length (filter P (<[i := x]> l)) <= S (length (filter P l)))%nat.
Proof.
  revert i. induction l as [|y l IH]; intros i;
    [rewrite list_insert_ge by (cbn; lia); lia|].
  destruct i as [|i]; cbn [insert list_insert].
  - rewrite !filter_cons.
    destruct (decide (P x)), (decide (P y)); cbn [length]; lia.
  - change (list_insert i x l) with (<[i := x]> l).
    rewrite !filter_cons. specialize (IH i).
    destruct (decide (P y)); cbn [length]; [apply le_n_S|]; exact IH.
Qed.

Lemma lock_cells_full_rows (nm : string) (cs : list (Z * Z)) (b b' : board) :
  lock_cells b nm cs = Ok b' ->
  (length (filter full b') <= length (filter full b) + length cs)%nat.
Proof.
  revert b. induction cs as [|[x y] cs IH]; intros b; cbn [lock_cells].
  - intros [= ->]. lia.
  - destruct ((0 <=? y) && (y <? GRID_HEIGHT)).
    + destruct (Py.getitem b y) as [r|e]; cbn [bind]; [|discriminate].
      destruct (Py.setitem r x (Some nm)) as [r'|e]; cbn [bind];
        [|discriminate].
      unfold Py.setitem at 1.
      destruct (Py.index (length b) y) as [n|e]; cbn [bind]; [|discriminate].
      intros H. apply IH in H.
      pose proof (filter_insert_length full b n r'). cbn [length]. lia.
    + intros H. apply IH in H. cbn [length]. lia.
Qed.

(** X11.  When no row of the board is full, as [clear_lines] leaves it,
    locking a validly placed piece and clearing returns a count between 0
    and 4, since the four cells of the piece complete four rows at most;
    so the score table has an entry for every count that occurs in a
    game. *)
Theorem lock_clears_at_most_four (b : board) (p : Tetromino) :
  board_wf b -> Forall (fun r : row => ~ full r) b ->
  is_valid_position b p = Ok true ->
  exists b',
    lock_piece b p = Ok b' /\
    0 <= (clear_lines b').2 <= 4 /\
    is_Some (scoring_table !! (clear_lines b').2).
Proof.
  intros Hwf Hnone Hvalid.
  destruct (lock_piece_wf b p Hwf Hvalid) as (b' & Hb' & [Hlen' _]).
  exists b'. split; [exact Hb'|].
  destruct (valid_position_cells b p Hvalid) as (cs & Hcs & _).
  unfold lock_piece in Hb'. rewrite Hcs in Hb'. cbn [bind] in Hb'.
  apply lock_cells_full_rows in Hb'.
  apply cells_inv in Hcs as (offs & [Hoffs _] & ->).
  rewrite length_map, Hoffs in Hb'.
  assert (Hzero : filter full b = []).
  { clear -Hnone. induction Hnone as [|r b Hr _ IH]; [reflexivity|].
    by rewrite filter_cons, decide_False. }
  rewrite Hzero in Hb'. cbn [length] in Hb'.
  rewrite clear_lines_eq by exact Hlen'. cbn [snd].
  assert (Hc : 0 <= Z.of_nat (length (filter full b')) <= 4) by lia.
  split; [exact Hc|].
  destruct (length (filter full b')) as [|[|[|[|[|n]]]]]; try lia;
    eexists; reflexivity.
Qed.

Lemma lock_clears_at_most_four_witness :
  exists b',
    lock_piece create_board (new_piece "I") = Ok b' /\
    0 <= (clear_lines b').2 <= 4 /\
    is_Some (scoring_table !! (clear_lines b').2).
Proof.
  apply (lock_clears_at_most_four create_board (new_piece "I")).
  - exact create_board_wf.
  - apply Forall_replicate. exact empty_row_not_full.
  - reflexivity.
Defined.

(** ** Where a hard drop ends *)

(** X12.  The piece that [hard_drop] returns cannot move down any further,
    so dropping it again returns it unchanged; it has the kind, rotation
    and column of the piece dropped and is not above it; and it is validly
    placed if the piece dropped was.  This holds for every board and piece
    for which the call returns a piece. *)
Theorem hard_drop_rests (fuel : nat) (b : board) (p d : Tetromino) :
  hard_drop fuel b p = Some (Ok d) ->
  is_valid_position b (moved d 0 1) = Ok false /\
  (forall fuel', (0 < fuel')%nat -> hard_drop fuel' b d = Some (Ok d)) /\
  (is_valid_position b p = Ok true -> is_valid_position b d = Ok true) /\
  name d = name p /\ rotation d = rotation p /\
  (position d).1 = (position p).1 /\ (position p).2 <= (position d).2.
Proof.
  revert p. induction fuel as [|fuel IH]; intros p; [discriminate|].
  cbn [hard_drop].
  destruct (is_valid_position b (moved p 0 1)) as [[|]|e] eqn:Hv.
  - intros H. destruct (IH _ H) as (Hstop & Hagain & Hvalid & Hn & Hr & Hx & Hy).
    destruct (moved_position p 0 1) as (Hn' & Hr' & Hpos').
    rewrite Hpos' in Hx, Hy. cbn [fst snd] in Hx, Hy.
    split; [exact Hstop|]. split; [exact Hagain|].
    split; [intros _; by apply Hvalid|].
    split; [congruence|]. split; [congruence|]. split; lia.
  - intros [= <-]. split; [exact Hv|]. split.
    + intros [|fuel'] Hf; [lia|]. cbn [hard_drop]. by rewrite Hv.
    + repeat split; (done || lia).
  - discriminate.
Qed.

Lemma hard_drop_rests_witness :
  is_valid_position create_board (moved (mkTetromino "I" 0 (3, 18)) 0 1)
    = Ok false /\
  (forall fuel', (0 < fuel')%nat ->
     hard_drop fuel' create_board (mkTetromino "I" 0 (3, 18)) =
     Some (Ok (mkTetromino "I" 0 (3, 18)))) /\
  (is_valid_position create_board (new_piece "I") = Ok true ->
   is_valid_position create_board (mkTetromino "I" 0 (3, 18)) = Ok true) /\
  name (mkTetromino "I" 0 (3, 18)) = name (new_piece "I") /\
  rotation (mkTetromino "I" 0 (3, 18)) = rotation (new_piece "I") /\
  (position (mkTetromino "I" 0 (3, 18))).1 = (position (new_piece "I")).1 /\
  (position (new_piece "I")).2 <= (position (mkTetromino "I" 0 (3, 18))).2.
Proof.
  apply (hard_drop_rests 30 create_board (new_piece "I")). reflexivity.
Defined.

(** ** What a game keeps true *)

Lemma lock_piece_inv (b : board) (p : Tetromino) :
  board_wf b -> cells_ok b -> is_valid_position b p = Ok true ->
  exists b',
    lock_piece b p = Ok b' /\ board_wf b' /\ cells_ok b' /\
    (Forall (fun r : row => ~ full r) b ->
     (length (filter full b') <= 4)%nat).
Proof.
  intros Hwf Hok Hvalid.
  destruct (valid_position_cells b p Hvalid) as (cs & Hcs & Hfree & Hnm).
  destruct (lock_cells_spec (name p) cs b Hwf) as (b' & Hb' & Hwf' & _ & Hok').
  { eapply Forall_impl; [exact Hfree|]. intros c (? & ? & _). auto. }
  exists b'. unfold lock_piece. rewrite Hcs. cbn [bind].
  split; [exact Hb'|]. split; [exact Hwf'|]. split; [by apply Hok'|].
  intros Hnone. apply lock_cells_full_rows in Hb'.
  apply cells_inv in Hcs as (offs & [Hoffs _] & ->).
  rewrite length_map, Hoffs in Hb'.
  assert (Hzero : filter full b = []).
  { clear -Hnone. induction Hnone as [|r b Hr _ IH]; [reflexivity|].
    by rewrite filter_cons, decide_False. }
  rewrite Hzero in Hb'. exact Hb'.
Qed.

Lemma clear_lines_inv (b : board) :
  board_wf b -> cells_ok b ->
  board_wf (clear_lines b).1 /\ cells_ok (clear_lines b).1 /\
  Forall (fun r : row => ~ full r) (clear_lines b).1 /\
  (clear_lines b).2 = Z.of_nat (length (filter full b)).
Proof.
  intros Hwf Hok. split; [by apply clear_lines_wf|].
  destruct Hwf as [Hlen _]. rewrite clear_lines_eq by exact Hlen.
  cbn [fst snd]. split; [|split; [|reflexivity]].
  - unfold cells_ok in *. apply Forall_app. split.
    + apply Forall_replicate, Forall_replicate. exact I.
    + rewrite Forall_forall in Hok. apply Forall_forall. intros r Hr.
      apply list_elem_of_filter in Hr as [_ Hr]. by apply Hok.
  - apply Forall_app. split.
    + apply Forall_replicate. exact empty_row_not_full.
    + apply Forall_forall. intros r Hr.
      by apply list_elem_of_filter in Hr as [Hr _].
Qed.

Lemma wall_kicks_result (b : board) (r cur c : Tetromino) (dxs : list Z) :
  wall_kicks b r cur dxs = Ok c ->
  c = cur \/
  (exists dx, c = moved r dx 0 /\ is_valid_position b c = Ok true).
Proof.
  induction dxs as [|dx dxs IH]; cbn [wall_kicks].
  - intros [= <-]. by left.
  - destruct (is_valid_position b (moved r dx 0)) as [[|]|e] eqn:Hv;
      cbn [bind]; [|exact IH|discriminate].
    intros [= <-]. right. by exists dx.
Qed.

Lemma SHAPE_ORDER_NoDup : NoDup SHAPE_ORDER.
Proof. eapply bool_decide_unpack. vm_compute. exact I. Qed.

Lemma new_piece_valid_empty_board (k : string) :
  k ∈ SHAPE_ORDER -> is_valid_position create_board (new_piece k) = Ok true.
Proof.
  unfold SHAPE_ORDER, Py.keys, SHAPES. cbn [fmap list_fmap fst].
  rewrite !elem_of_cons, elem_of_nil.
  intros [->|[->|[->|[->|[->|[->|[->|[]]]]]]]]; reflexivity.
Qed.

Section Play.

Context {Rng : Type} (shuffle : Rng -> list string -> list string * Rng).
Hypothesis shuffle_perm : forall g l, (shuffle g l).1 ≡ₚ l.

Lemma next_bag_kinds (g : Rng) :
  kinds_ok (next_bag shuffle g).1 /\ NoDup (next_bag shuffle g).1 /\
  length (next_bag shuffle g).1 = 7%nat.
Proof.
  pose proof (next_bag_perm shuffle shuffle_perm g) as Hperm.
  split; [|split].
  - unfold kinds_ok. apply Forall_forall. intros k Hk. by rewrite <- Hperm.
  - rewrite Hperm. exact SHAPE_ORDER_NoDup.
  - by rewrite Hperm.
Qed.

Lemma spawn_piece_ok (queue : list string) (rng : Rng) :
  kinds_ok queue ->
  exists k queue' rng',
    spawn_piece shuffle queue rng = Ok (k, queue', rng') /\
    k ∈ SHAPE_ORDER /\ kinds_ok queue'.
Proof.
  intros Hq. destruct queue as [|k q].
  - destruct (spawn_piece_refill shuffle shuffle_perm rng)
      as (k & rest & Hbag & Hspawn).
    destruct (next_bag_kinds rng) as (Hkinds & _). rewrite Hbag in Hkinds.
    apply Forall_cons_1 in Hkinds as [Hk Hrest]. eauto 10.
  - apply Forall_cons_1 in Hq as [Hk Hrest].
    exists k, q, rng. by rewrite spawn_piece_front.
Qed.

Lemma draws_take (m : nat) (q : list string) (g : Rng) :
  (m <= length q)%nat -> draws shuffle m q g = Ok (take m q, drop m q, g).
Proof.
  revert q. induction m as [|m IH]; intros q Hm; [by rewrite drop_0|].
  destruct q as [|k q]; [cbn in Hm; lia|]. cbn [draws].
  rewrite spawn_piece_front. cbn [bind].
  rewrite IH by (cbn in Hm; lia). reflexivity.
Qed.

Lemma draws_bags_rest (a r : nat) (g : Rng) :
  (r < 7)%nat ->
  exists ks q g',
    draws shuffle (7 * a + r) [] g = Ok (ks, q, g') /\
    length ks = (7 * a + r)%nat /\ kinds_ok ks /\ kinds_ok q /\ NoDup q /\
    length q = ((7 - r) mod 7)%nat /\
    (r <> 0%nat -> drop (7 * a) ks ++ q ≡ₚ SHAPE_ORDER).
Proof.
  intros Hr. rewrite draws_add, (draws_bags shuffle shuffle_perm a g).
  cbn [bind].
  destruct (bags_perm shuffle shuffle_perm a g) as [Hlen Hall].
  set (bs := (bags shuffle a g).1) in *. set (g1 := (bags shuffle a g).2).
  assert (Hks1 : kinds_ok (concat bs)).
  { unfold kinds_ok. apply Forall_concat. eapply Forall_impl; [exact Hall|].
    intros bag Hbag. apply Forall_forall. intros k Hk. by rewrite <- Hbag. }
  assert (Hlen1 : length (concat bs) = (7 * a)%nat).
  { rewrite <- Hlen. clear -Hall.
    induction Hall as [|bag bs Hbag _ IH]; [reflexivity|].
    cbn [concat length]. rewrite length_app, IH, Hbag. cbn. lia. }
  destruct r as [|r'].
  - cbn [draws bind]. exists (concat bs), [], g1. rewrite app_nil_r.
    split; [reflexivity|]. split; [lia|]. split; [exact Hks1|].
    split; [constructor|]. split; [constructor|]. split; [reflexivity|].
    intros H. by destruct H.
  - cbn [draws].
    destruct (spawn_piece_refill shuffle shuffle_perm g1)
      as (k & rest & Hbag & Hspawn).
    destruct (next_bag_kinds g1) as (Hkinds & Hnd & Hseven).
    pose proof (next_bag_perm shuffle shuffle_perm g1) as Hperm.
    rewrite Hbag in Hkinds, Hnd, Hseven, Hperm. cbn [length] in Hseven.
    rewrite Hspawn. cbn [bind]. rewrite draws_take by lia. cbn [bind].
    apply Forall_cons_1 in Hkinds as [Hk Hrest].
    apply NoDup_cons in Hnd as [_ Hnd].
    exists (concat bs ++ k :: take r' rest), (drop r' rest),
      (next_bag shuffle g1).2.
    split; [reflexivity|]. split.
    { rewrite length_app, Hlen1. cbn [length]. rewrite length_take. lia. }
    split.
    { unfold kinds_ok in *. apply Forall_app. split; [exact Hks1|].
      constructor; [exact Hk|]. by apply Forall_take. }
    split; [by apply Forall_drop|]. split.
    { eapply sublist_NoDup; [exact Hnd | apply sublist_drop]. }
    split.
    { rewrite length_drop.
      replace ((7 - S r') mod 7)%nat with (7 - S r')%nat
        by (symmetry; apply Nat.mod_small; lia).
      lia. }
    intros _. rewrite <- Hlen1.
    rewrite drop_app_length. cbn [app]. by rewrite take_drop.
Qed.

(** X13.  However many kinds have been drawn from a fresh queue, no draw
    has failed, every kind drawn is one of the seven, and the queue holds
    the kinds of the current bag that are still to come: no kind twice,
    six kinds at most, and together with the kinds drawn since the bag was
    opened exactly the seven kinds. *)
Theorem draws_queue_state (n : nat) (g : Rng) :
  exists ks q g',
    draws shuffle n [] g = Ok (ks, q, g') /\
    length ks = n /\ kinds_ok ks /\ kinds_ok q /\ NoDup q /\
    (length q <= 6)%nat /\
    length q = ((7 - n mod 7) mod 7)%nat /\
    ((n mod 7)%nat <> 0%nat ->
     drop (n - n mod 7)%nat ks ++ q ≡ₚ SHAPE_ORDER).
Proof.
  pose proof (Nat.div_mod_eq n 7) as Hn.
  pose proof (Nat.mod_upper_bound n 7 ltac:(lia)) as Hr.
  destruct (draws_bags_rest (n / 7) (n mod 7) g Hr)
    as (ks & q & g' & Hd & Hlen & Hks & Hq & Hnd & Hlq & Hperm).
  exists ks, q, g'. rewrite <- Hn in Hd, Hlen.
  split; [exact Hd|]. split; [exact Hlen|]. split; [exact Hks|].
  split; [exact Hq|]. split; [exact Hnd|]. split.
  { rewrite Hlq. pose proof (Nat.mod_upper_bound (7 - n mod 7) 7). lia. }
  split; [exact Hlq|].
  intros Hne. replace (n - n mod 7)%nat with (7 * (n / 7))%nat by lia.
  by apply Hperm.
Qed.

(** X14.  [main] starts a game that satisfies the invariant of the game:
    the board is empty, the score and the line total are 0, the level is
    1, the interval 700 ms, the first piece stands validly at the spawn
    position, and the first piece, the lookahead and the queue are the
    seven kinds of one bag, so that the lookahead differs from the first
    piece. *)
Theorem init_game_inv (rng : Rng) :
  exists g,
    init_game shuffle rng = Ok g /\ game_inv g /\
    g_board g = create_board /\ g_score g = 0 /\ g_lines_cleared g = 0 /\
    g_level g = 1 /\ g_drop_interval g = 700 /\ g_running g = true /\
    g_current_piece g = new_piece (name (g_current_piece g)) /\
    name (g_current_piece g) :: g_next_piece_name g :: g_queue g
      ≡ₚ SHAPE_ORDER /\
    name (g_current_piece g) <> g_next_piece_name g.
Proof.
  destruct (spawn_piece_refill shuffle shuffle_perm rng)
    as (k & rest & Hbag & Hspawn).
  destruct (next_bag_kinds rng) as (Hkinds & Hnd & Hseven).
  pose proof (next_bag_perm shuffle shuffle_perm rng) as Hperm.
  rewrite Hbag in Hkinds, Hnd, Hseven, Hperm.
  destruct rest as [|k2 rest]; [discriminate Hseven|].
  apply Forall_cons_1 in Hkinds as [Hk Hkinds].
  apply Forall_cons_1 in Hkinds as [Hk2 Hrest].
  eexists. unfold init_game. rewrite Hspawn. cbn [bind].
  rewrite spawn_piece_front. cbn [bind].
  split; [reflexivity|]. cbn.
  split; [|split; [reflexivity|]].
  - split; [|by apply new_piece_valid_empty_board].
    unfold game_rest_ok. cbn.
    split; [exact create_board_wf|]. split.
    { unfold cells_ok, create_board, empty_row.
      apply Forall_replicate, Forall_replicate. exact I. }
    split; [apply Forall_replicate; exact empty_row_not_full|].
    repeat split; (assumption || lia || reflexivity).
  - repeat split; try reflexivity; [exact Hperm|].
    apply NoDup_cons in Hnd as [Hnotin _]. intros ->.
    apply Hnotin, list_elem_of_here.
Qed.

Lemma settle_game_inv (g : game Rng) (piece : Tetromino) :
  game_rest_ok g -> is_valid_position (g_board g) piece = Ok true ->
  exists g' brk,
    settle_game shuffle g piece = Ok (g', brk) /\ game_rest_ok g' /\
    is_valid_position (g_board g') (g_current_piece g') = Ok (negb brk) /\
    g_running g' = (if brk then false else g_running g) /\
    g_score g <= g_score g' <= g_score g + 800 /\
    g_lines_cleared g <= g_lines_cleared g' <= g_lines_cleared g + 4 /\
    g_level g <= g_level g'.
Proof.
  intros (Hwf & Hok & Hnone & _ & _ & Hnext & Hqueue & Hscore & Hlines &
          Hlevel & _) Hvalid.
  destruct (lock_piece_inv (g_board g) piece Hwf Hok Hvalid)
    as (b1 & Hlock & Hwf1 & Hok1 & Hfour).
  specialize (Hfour Hnone).
  destruct (clear_lines_inv b1 Hwf1 Hok1) as (Hwf2 & Hok2 & Hnone2 & Hcount).
  destruct (clear_lines b1) as [b2 cleared] eqn:Hclear. cbn [fst snd] in *.
  destruct (spawn_piece_ok (g_queue g) (g_rng g) Hqueue)
    as (k & q' & rng' & Hspawn & Hk & Hq').
  destruct (is_valid_position_total b2 (new_piece (g_next_piece_name g)) Hwf2
              (piece_ok_has_cells _ (piece_ok_new _ Hnext))) as [v Hv].
  pose proof (score_delta_bounds cleared) as Hdelta.
  assert (Hdiv : g_lines_cleared g / 10 <= (g_lines_cleared g + cleared) / 10)
    by (apply Z.div_le_mono; lia).
  pose proof (Z.div_pos (g_lines_cleared g) 10 Hlines ltac:(lia)) as Hpos.
  eexists _, (negb v). unfold settle_game, settle_piece.
  rewrite Hlock. cbn [bind]. rewrite Hclear.
  unfold update_level_and_score. rewrite scoring_table_lookup.
  rewrite Hspawn. cbn [bind]. rewrite Hv. cbn [bind after_settle].
  cbn [s_board s_queue s_rng s_current_piece s_next_piece_name s_score
       s_lines_cleared s_level s_drop_interval s_game_over].
  split; [reflexivity|]. unfold game_rest_ok.
  cbn [g_board g_queue g_rng g_current_piece g_next_piece_name g_score
       g_lines_cleared g_level g_drop_interval g_running
       s_board s_queue s_rng s_current_piece s_next_piece_name s_score
       s_lines_cleared s_level s_drop_interval s_game_over].
  rewrite negb_involutive.
  split; [|split; [exact Hv|split; [reflexivity|]]].
  - split; [exact Hwf2|]. split; [exact Hok2|]. split; [exact Hnone2|].
    split; [exact Hnext|]. split; [cbn; lia|]. split; [exact Hk|].
    split; [exact Hq'|]. split; [lia|]. split; [lia|]. by split.
  - rewrite Hlevel. lia.
Qed.

Lemma handle_event_inv (g : game Rng) (ev : event) :
  game_inv g ->
  exists g' brk,
    (forall fuel, (21 <= fuel)%nat ->
       handle_event shuffle fuel g ev = Some (Ok (g', brk))) /\
    game_rest_ok g' /\ game_le g g' /\
    (brk = false -> game_inv g') /\
    (brk = true ->
     g_running g' = false /\
     is_valid_position (g_board g') (g_current_piece g') = Ok false) /\
    g_score g' <= g_score g + 800 /\
    g_lines_cleared g' <= g_lines_cleared g + 4.
Proof.
  intros [Hrest Hvalid].
  pose proof Hrest as (Hwf & Hok & Hnone & Hname & Hpy & Hnext & Hqueue &
                       Hscore & Hlines & Hlevel & Hinterval).
  assert (Hcells : has_cells (g_current_piece g)).
  { apply valid_position_cells in Hvalid as (cs & Hcs & _). by exists cs. }
  (* an event that locks nothing *)
  assert (Hfin : forall g' : game Rng,
            game_rest_ok g' ->
            is_valid_position (g_board g') (g_current_piece g') = Ok true ->
            g_score g' = g_score g ->
            g_lines_cleared g' = g_lines_cleared g ->
            g_level g' = g_level g ->
            (g_running g = false -> g_running g' = false) ->
            game_rest_ok g' /\ game_le g g' /\
            (false = false -> game_inv g') /\
            (false = true ->
             g_running g' = false /\
             is_valid_position (g_board g') (g_current_piece g') = Ok false) /\
            g_score g' <= g_score g + 800 /\
            g_lines_cleared g' <= g_lines_cleared g + 4).
  { intros g' Hr' Hv' Hs Hl Hlv Hrun. split; [exact Hr'|]. split.
    { unfold game_le. rewrite Hs, Hl, Hlv.
      split; [lia|]. split; [lia|]. split; [lia | exact Hrun]. }
    split; [intros _; by split|]. split; [discriminate|]. lia. }
  (* the piece is replaced by a validly placed one *)
  assert (Hset : forall p : Tetromino,
            name p = name (g_current_piece g) ->
            (position (g_current_piece g)).2 <= (position p).2 ->
            game_rest_ok (set_current_piece g p)).
  { intros p Hn Hp. unfold game_rest_ok, set_current_piece.
    cbn [g_board g_queue g_rng g_current_piece g_next_piece_name g_score
         g_lines_cleared g_level g_drop_interval g_running].
    rewrite Hn. repeat (split; [first [assumption | lia]|]). assumption. }
  (* a move by (dx, dy), dy not negative *)
  assert (Hmove : forall dx dy, 0 <= dy ->
            exists g',
              try_move g dx dy = Ok (g', false) /\
              game_rest_ok g' /\
              is_valid_position (g_board g') (g_current_piece g') = Ok true /\
              g_score g' = g_score g /\
              g_lines_cleared g' = g_lines_cleared g /\
              g_level g' = g_level g /\ g_running g' = g_running g).
  { intros dx dy Hdy. unfold try_move.
    destruct (is_valid_position_total (g_board g)
                (moved (g_current_piece g) dx dy) Hwf
                (has_cells_moved _ dx dy Hcells)) as [[|] Hv];
      rewrite Hv; cbn [bind]; eexists; (split; [reflexivity|]).
    - destruct (moved_position (g_current_piece g) dx dy) as (Hn & _ & Hpos).
      split; [apply Hset; [exact Hn | rewrite Hpos; cbn; lia]|].
      split; [exact Hv|]. by repeat split.
    - split; [exact Hrest|]. split; [exact Hvalid|]. by repeat split. }
  (* a piece settles *)
  assert (Hsettle : forall piece,
            is_valid_position (g_board g) piece = Ok true ->
            exists g' brk,
              settle_game shuffle g piece = Ok (g', brk) /\
              game_rest_ok g' /\ game_le g g' /\
              (brk = false -> game_inv g') /\
              (brk = true ->
               g_running g' = false /\
               is_valid_position (g_board g') (g_current_piece g')
               = Ok false) /\
              g_score g' <= g_score g + 800 /\
              g_lines_cleared g' <= g_lines_cleared g + 4).
  { intros piece Hv.
    destruct (settle_game_inv g piece Hrest Hv)
      as (g' & brk & Hs & Hr' & Hv' & Hrun & Hsc & Hli & Hlv).
    exists g', brk. split; [exact Hs|]. split; [exact Hr'|]. split.
    { unfold game_le. split; [lia|]. split; [lia|]. split; [lia|].
      intros Hoff. rewrite Hrun, Hoff. by destruct brk. }
    split; [intros ->; by split|]. split; [|lia].
    intros ->. by split. }
  destruct ev as [| |[| | | | | |]|].
  - (* QUIT *)
    exists (set_running g false), false.
    split; [reflexivity|]. by apply Hfin.
  - (* DROP_EVENT *)
    destruct (is_valid_position_total (g_board g)
                (moved (g_current_piece g) 0 1) Hwf
                (has_cells_moved _ 0 1 Hcells)) as [[|] Hv].
    + destruct (moved_position (g_current_piece g) 0 1) as (Hn & _ & Hpos).
      exists (set_current_piece g (moved (g_current_piece g) 0 1)), false.
      split; [intros fuel _; cbn [handle_event]; by rewrite Hv|].
      apply Hfin; try done.
      apply Hset; [exact Hn | rewrite Hpos; cbn; lia].
    + destruct (Hsettle _ Hvalid) as (g' & brk & Hs & ?).
      exists g', brk. split; [|assumption].
      intros fuel _. cbn [handle_event]. rewrite Hv. cbn [bind]. by rewrite Hs.
  - (* K_ESCAPE *)
    exists (set_running g false), false.
    split; [reflexivity|]. by apply Hfin.
  - (* K_LEFT *)
    destruct (Hmove (-1) 0 ltac:(lia))
      as (g' & Hm & ? & ? & ? & ? & ? & Hrun).
    exists g', false. split; [intros fuel _; cbn [handle_event]; by rewrite Hm|].
    apply Hfin; try done. by rewrite Hrun.
  - (* K_RIGHT *)
    destruct (Hmove 1 0 ltac:(lia)) as (g' & Hm & ? & ? & ? & ? & ? & Hrun).
    exists g', false. split; [intros fuel _; cbn [handle_event]; by rewrite Hm|].
    apply Hfin; try done. by rewrite Hrun.
  - (* K_DOWN *)
    destruct (Hmove 0 1 ltac:(lia)) as (g' & Hm & ? & ? & ? & ? & ? & Hrun).
    exists g', false. split; [intros fuel _; cbn [handle_event]; by rewrite Hm|].
    apply Hfin; try done. by rewrite Hrun.
  - (* K_UP *)
    destruct (rotated_piece_ok (g_current_piece g) 1 Hname)
      as (r & Hr & Hrok & Hrn & Hrpos).
    apply piece_ok_has_cells in Hrok.
    destruct (is_valid_position_total (g_board g) r Hwf Hrok) as [[|] Hv].
    + exists (set_current_piece g r), false.
      split; [intros fuel _; cbn [handle_event]; rewrite Hr; cbn [bind];
              by rewrite Hv|].
      apply Hfin; try done. apply Hset; [exact Hrn | rewrite Hrpos; lia].
    + destruct (wall_kicks_total (g_board g) r (g_current_piece g) KICKS
                  Hwf Hrok) as [c Hc].
      exists (set_current_piece g c), false.
      split; [intros fuel _; cbn [handle_event]; rewrite Hr; cbn [bind];
              rewrite Hv; cbn [bind]; by rewrite Hc|].
      destruct (wall_kicks_result _ _ _ _ _ Hc) as [->|(dx & -> & Hvc)].
      * apply Hfin; first [done | apply Hset; (done || lia)].
      * destruct (moved_position r dx 0) as (Hn & _ & Hpos).
        apply Hfin; try done.
        apply Hset; [congruence|]. rewrite Hpos, Hrpos. cbn. lia.
  - (* K_SPACE *)
    destruct (hard_drop_lowest (g_board g) 20 (g_current_piece g) Hwf Hcells)
      as (k & Hk & Hrun & Hall & _); [unfold GRID_HEIGHT; lia|].
    assert (Hdropped : is_valid_position (g_board g)
                         (moved (g_current_piece g) 0 k) = Ok true).
    { destruct (decide (k = 0)) as [->|Hk0]; [by rewrite moved_0|].
      apply Hall. lia. }
    destruct (Hsettle _ Hdropped) as (g' & brk & Hs & ?).
    exists g', brk. split; [|assumption].
    intros fuel Hfuel. cbn [handle_event]. rewrite Hrun by lia. by rewrite Hs.
  - (* another key *)
    exists g, false. split; [reflexivity|]. by apply Hfin.
  - (* another event *)
    exists g, false. split; [reflexivity|]. by apply Hfin.
Qed.

(** X15.  While the game runs, no event makes [main] raise an exception,
    and 21 rounds are enough for the loop of a hard drop.  After the
    event the invariant of the game holds again, unless a piece has
    settled with the game over: then [running] is off and the new piece
    does not fit.  The score goes up by 800 at most, the line total by 4
    at most, and neither they nor the level go down. *)
Theorem handle_event_invariant (g : game Rng) (ev : event) :
  game_inv g ->
  exists g' brk,
    (forall fuel, (21 <= fuel)%nat ->
       handle_event shuffle fuel g ev = Some (Ok (g', brk))) /\
    game_rest_ok g' /\ game_le g g' /\
    (brk = false -> game_inv g') /\
    (brk = true ->
     g_running g' = false /\
     is_valid_position (g_board g') (g_current_piece g') = Ok false) /\
    g_score g' <= g_score g + 800 /\
    g_lines_cleared g' <= g_lines_cleared g + 4.
Proof.
  intros Hinv.
  destruct (handle_event_inv g ev Hinv) as (g' & brk & H). by exists g', brk.
Qed.

Lemma game_le_trans (g1 g2 g3 : game Rng) :
  game_le g1 g2 -> game_le g2 g3 -> game_le g1 g3.
Proof.
  intros (? & ? & ? & H12) (? & ? & ? & H23).
  unfold game_le. repeat split; try lia. auto.
Qed.

Lemma game_le_refl (g : game Rng) : game_le g g.
Proof. unfold game_le. repeat split; (lia || done). Qed.

Lemma process_events_inv (events : list event) (g : game Rng) :
  game_inv g ->
  exists g',
    (forall fuel, (21 <= fuel)%nat ->
       process_events shuffle fuel g events = Some (Ok g')) /\
    game_rest_ok g' /\ game_le g g' /\
    (game_inv g' \/
     (g_running g' = false /\
      is_valid_position (g_board g') (g_current_piece g') = Ok false)).
Proof.
  revert g. induction events as [|ev events IH]; intros g Hinv.
  - exists g. split; [reflexivity|]. split; [apply Hinv|].
    split; [apply game_le_refl | by left].
  - destruct (handle_event_inv g ev Hinv)
      as (g1 & brk & Hstep & Hrest & Hle & Hgo & Hover & _).
    destruct brk.
    + exists g1. split.
      { intros fuel Hfuel. cbn [process_events]. by rewrite Hstep. }
      split; [exact Hrest|]. split; [exact Hle|]. right. by apply Hover.
    + destruct (IH g1 (Hgo eq_refl)) as (g' & Hrun & Hrest' & Hle' & Hend).
      exists g'. split.
      { intros fuel Hfuel. cbn [process_events]. rewrite Hstep by exact Hfuel.
        by apply Hrun. }
      split; [exact Hrest'|]. split; [|exact Hend].
      eapply game_le_trans; eassumption.
Qed.



End Play.

Lemma draws_queue_state_witness :
  exists ks q g',
    draws reverse_shuffle 10 [] 0%nat = Ok (ks, q, g') /\
    length ks = 10%nat /\ kinds_ok ks /\ kinds_ok q /\ NoDup q /\
    (length q <= 6)%nat /\
    length q = ((7 - 10 mod 7) mod 7)%nat /\
    ((10 mod 7)%nat <> 0%nat ->
     drop (10 - 10 mod 7)%nat ks ++ q ≡ₚ SHAPE_ORDER).
Proof.
  apply (draws_queue_state reverse_shuffle reverse_shuffle_perm 10 0%nat).
Defined.

Lemma init_game_inv_witness :
  exists g,
    init_game reverse_shuffle 0%nat = Ok g /\ game_inv g /\
    g_board g = create_board /\ g_score g = 0 /\ g_lines_cleared g = 0 /\
    g_level g = 1 /\ g_drop_interval g = 700 /\ g_running g = true /\
    g_current_piece g = new_piece (name (g_current_piece g)) /\
    name (g_current_piece g) :: g_next_piece_name g :: g_queue g
      ≡ₚ SHAPE_ORDER /\
    name (g_current_piece g) <> g_next_piece_name g.
Proof. apply (init_game_inv reverse_shuffle reverse_shuffle_perm 0%nat). Defined.

Lemma kind_in_SHAPE_ORDER (k : string) :
  (exists v, Py.dict_get SHAPES k = Ok v) -> k ∈ SHAPE_ORDER.
Proof. apply dict_get_keys. Qed.

Lemma demo_game_inv : game_inv demo_game.
Proof.
  split; [|reflexivity]. unfold game_rest_ok, demo_game.
  cbn [g_board g_queue g_rng g_current_piece g_next_piece_name g_score
       g_lines_cleared g_level g_drop_interval g_running].
  split; [exact create_board_wf|]. split.
  { unfold cells_ok, create_board, empty_row.
    apply Forall_replicate, Forall_replicate. exact I. }
  split; [apply Forall_replicate; exact empty_row_not_full|].
  split; [apply kind_in_SHAPE_ORDER; eexists; reflexivity|].
  split; [cbn; lia|].
  split; [apply kind_in_SHAPE_ORDER; eexists; reflexivity|].
  split.
  { unfold kinds_ok.
    repeat (apply Forall_cons_2;
            [apply kind_in_SHAPE_ORDER; eexists; reflexivity|]).
    apply Forall_nil_2. }
  split; [lia|]. split; [lia|]. split; reflexivity.
Qed.

Lemma handle_event_invariant_witness :
  exists g' brk,
    (forall fuel, (21 <= fuel)%nat ->
       handle_event reverse_shuffle fuel demo_game (KEYDOWN K_SPACE)
       = Some (Ok (g', brk))) /\
    game_rest_ok g' /\ game_le demo_game g' /\
    (brk = false -> game_inv g') /\
    (brk = true ->
     g_running g' = false /\
     is_valid_position (g_board g') (g_current_piece g') = Ok false) /\
    g_score g' <= g_score demo_game + 800 /\
    g_lines_cleared g' <= g_lines_cleared demo_game + 4.
Proof.
  apply (handle_event_invariant reverse_shuffle reverse_shuffle_perm
           demo_game (KEYDOWN K_SPACE)).
  exact demo_game_inv.
Defined.


(** Forty hard drops in a row, one per frame, fill the middle columns up to
    the top: the game is over, and the score is still 0 since no row was
    ever completed. *)
Example forty_hard_drops :
  exists g',
    main_loop reverse_shuffle 21 demo_game (replicate 40 [KEYDOWN K_SPACE])
    = Some (Ok g') /\
    g_running g' = false /\ g_score g' = 0 /\
    is_valid_position (g_board g') (g_current_piece g') = Ok false.
Proof. eexists. split; [vm_compute; reflexivity|]. by vm_compute. Qed.

(** ** Events that lock nothing *)

Lemma rotated_name (p r : Tetromino) (d : Z) :
  rotated p d = Ok r -> name r = name p /\ position r = position p.
Proof.
  unfold rotated.
  destruct (Py.dict_get SHAPES (name p)) as [rots|e]; cbn [bind];
    [|discriminate].
  destruct (Py.mod_ (rotation p + d) (Z.of_nat (length rots))) as [i|e];
    cbn [bind]; [|discriminate].
  by intros [= <-].
Qed.

(** X17.  An event other than the drop timer and the space bar leaves the
    board, the queue, the generator, the lookahead, the score, the line
    total, the level and the interval as they are and does not end the
    frame.  The piece keeps its kind, and it is either the piece as it was
    or a piece that is validly placed.  The window's close button and the
    escape key turn [running] off; every other such event leaves it as it
    is. *)
Theorem handle_event_frame {Rng : Type}
    (shuffle : Rng -> list string -> list string * Rng)
    (fuel : nat) (g g' : game Rng) (ev : event) (brk : bool) :
  handle_event shuffle fuel g ev = Some (Ok (g', brk)) ->
  locking_event ev = false ->
  brk = false /\
  g_board g' = g_board g /\ g_queue g' = g_queue g /\
  g_rng g' = g_rng g /\
  g_next_piece_name g' = g_next_piece_name g /\
  g_score g' = g_score g /\
  g_lines_cleared g' = g_lines_cleared g /\
  g_level g' = g_level g /\
  g_drop_interval g' = g_drop_interval g /\
  name (g_current_piece g') = name (g_current_piece g) /\
  (g_current_piece g' = g_current_piece g \/
   is_valid_position (g_board g) (g_current_piece g') = Ok true) /\
  ((ev = QUIT \/ ev = KEYDOWN K_ESCAPE) -> g_running g' = false) /\
  (ev <> QUIT -> ev <> KEYDOWN K_ESCAPE ->
   g_running g' = g_running g).
Proof.
  assert (Hmove : forall dx dy,
            try_move g dx dy = Ok (g', brk) ->
            brk = false /\
            g_board g' = g_board g /\ g_queue g' = g_queue g /\
            g_rng g' = g_rng g /\
            g_next_piece_name g' = g_next_piece_name g /\
            g_score g' = g_score g /\
            g_lines_cleared g' = g_lines_cleared g /\
            g_level g' = g_level g /\
            g_drop_interval g' = g_drop_interval g /\
            name (g_current_piece g') = name (g_current_piece g) /\
            (g_current_piece g' = g_current_piece g \/
             is_valid_position (g_board g) (g_current_piece g') = Ok true) /\
            g_running g' = g_running g).
  { intros dx dy. unfold try_move.
    destruct (is_valid_position (g_board g)
                (moved (g_current_piece g) dx dy)) as [[|]|e] eqn:Hv;
      cbn [bind]; [| |discriminate]; intros [= <- <-].
    - destruct (moved_position (g_current_piece g) dx dy) as (Hn & _).
      cbn. repeat split; auto.
    - repeat split; auto. }
  assert (Hkeep : forall ev0 : event,
            ev0 <> QUIT -> ev0 <> KEYDOWN K_ESCAPE ->
            g_running g' = g_running g ->
            ((ev0 = QUIT \/ ev0 = KEYDOWN K_ESCAPE) -> g_running g' = false) /\
            (ev0 <> QUIT -> ev0 <> KEYDOWN K_ESCAPE ->
             g_running g' = g_running g)).
  { intros ev0 H1 H2 Hrun. split; [by intros [?|?]|done]. }
  assert (Hfin : forall ev0 : event,
            ev0 <> QUIT -> ev0 <> KEYDOWN K_ESCAPE ->
            brk = false /\
            g_board g' = g_board g /\ g_queue g' = g_queue g /\
            g_rng g' = g_rng g /\
            g_next_piece_name g' = g_next_piece_name g /\
            g_score g' = g_score g /\
            g_lines_cleared g' = g_lines_cleared g /\
            g_level g' = g_level g /\
            g_drop_interval g' = g_drop_interval g /\
            name (g_current_piece g') = name (g_current_piece g) /\
            (g_current_piece g' = g_current_piece g \/
             is_valid_position (g_board g) (g_current_piece g') = Ok true) /\
            g_running g' = g_running g ->
            brk = false /\
            g_board g' = g_board g /\ g_queue g' = g_queue g /\
            g_rng g' = g_rng g /\
            g_next_piece_name g' = g_next_piece_name g /\
            g_score g' = g_score g /\
            g_lines_cleared g' = g_lines_cleared g /\
            g_level g' = g_level g /\
            g_drop_interval g' = g_drop_interval g /\
            name (g_current_piece g') = name (g_current_piece g) /\
            (g_current_piece g' = g_current_piece g \/
             is_valid_position (g_board g) (g_current_piece g') = Ok true) /\
            ((ev0 = QUIT \/ ev0 = KEYDOWN K_ESCAPE) -> g_running g' = false) /\
            (ev0 <> QUIT -> ev0 <> KEYDOWN K_ESCAPE ->
             g_running g' = g_running g)).
  { intros ev0 H1 H2 (?&?&?&?&?&?&?&?&?&?&?&Hrun).
    do 11 (split; [assumption|]). by apply Hkeep. }
  destruct ev as [| |[| | | | | |]|];
    cbv beta iota delta [handle_event locking_event];
    try discriminate; intros H _.
  - injection H as <- <-. cbn. do 11 (split; [auto|]).
    split; [reflexivity | by intros ?].
  - injection H as <- <-. cbn. do 11 (split; [auto|]).
    split; [reflexivity | by intros ? ?].
  - apply Hfin; [done..|]. apply Hmove with (dx := -1) (dy := 0). congruence.
  - apply Hfin; [done..|]. apply Hmove with (dx := 1) (dy := 0). congruence.
  - apply Hfin; [done..|]. apply Hmove with (dx := 0) (dy := 1). congruence.
  - apply Hfin; [done..|]. apply (inj Some) in H.
    destruct (rotated (g_current_piece g) 1) as [r|e] eqn:Hr;
      cbv beta iota delta [bind] in H; [|discriminate H].
    apply rotated_name in Hr as [Hrn Hrpos].
    destruct (is_valid_position (g_board g) r) as [[|]|e] eqn:Hv;
      [| |discriminate H].
    + injection H as <- <-. cbn. repeat split; auto.
    + destruct (wall_kicks (g_board g) r (g_current_piece g) KICKS)
        as [c|e] eqn:Hc; [|discriminate H].
      injection H as <- <-. cbn.
      destruct (wall_kicks_result _ _ _ _ _ Hc) as [->|(dx & -> & Hvc)].
      * repeat split; auto.
      * destruct (moved_position r dx 0) as (Hn & _).
        repeat split; auto. congruence.
  - apply Hfin; [done..|]. injection H as <- <-. repeat split; auto.
  - apply Hfin; [done..|]. injection H as <- <-. repeat split; auto.
Qed.

Lemma handle_event_frame_witness :
  (false = false /\
   g_board demo_game_left = g_board demo_game /\
   g_queue demo_game_left = g_queue demo_game /\
   g_rng demo_game_left = g_rng demo_game /\
   g_next_piece_name demo_game_left = g_next_piece_name demo_game /\
   g_score demo_game_left = g_score demo_game /\
   g_lines_cleared demo_game_left = g_lines_cleared demo_game /\
   g_level demo_game_left = g_level demo_game /\
   g_drop_interval demo_game_left = g_drop_interval demo_game /\
   name (g_current_piece demo_game_left) = name (g_current_piece demo_game) /\
   (g_current_piece demo_game_left = g_current_piece demo_game \/
    is_valid_position (g_board demo_game) (g_current_piece demo_game_left) =
      Ok true) /\
   ((KEYDOWN K_LEFT = QUIT \/ KEYDOWN K_LEFT = KEYDOWN K_ESCAPE) ->
    g_running demo_game_left = false) /\
   (KEYDOWN K_LEFT <> QUIT -> KEYDOWN K_LEFT <> KEYDOWN K_ESCAPE ->
    g_running demo_game_left = g_running demo_game)) /\
  (false = false /\
   g_board demo_game_escape = g_board demo_game /\
   g_queue demo_game_escape = g_queue demo_game /\
   g_rng demo_game_escape = g_rng demo_game /\
   g_next_piece_name demo_game_escape = g_next_piece_name demo_game /\
   g_score demo_game_escape = g_score demo_game /\
   g_lines_cleared demo_game_escape = g_lines_cleared demo_game /\
   g_level demo_game_escape = g_level demo_game /\
   g_drop_interval demo_game_escape = g_drop_interval demo_game /\
   name (g_current_piece demo_game_escape) = name (g_current_piece demo_game) /\
   (g_current_piece demo_game_escape = g_current_piece demo_game \/
    is_valid_position (g_board demo_game) (g_current_piece demo_game_escape) =
      Ok true) /\
   ((KEYDOWN K_ESCAPE = QUIT \/ KEYDOWN K_ESCAPE = KEYDOWN K_ESCAPE) ->
    g_running demo_game_escape = false) /\
   (KEYDOWN K_ESCAPE <> QUIT -> KEYDOWN K_ESCAPE <> KEYDOWN K_ESCAPE ->
    g_running demo_game_escape = g_running demo_game)).
Proof.
  split.
  - apply (handle_event_frame reverse_shuffle 0 demo_game demo_game_left
             (KEYDOWN K_LEFT) false); reflexivity.
  - apply (handle_event_frame reverse_shuffle 0 demo_game demo_game_escape
             (KEYDOWN K_ESCAPE) false); reflexivity.
Defined.

(** ** Drawing *)

Lemma COLORS_kinds (k : string) :
  k ∈ SHAPE_ORDER -> k <> "" /\ exists col, Py.dict_get COLORS k = Ok col.
Proof.
  unfold SHAPE_ORDER, Py.keys, SHAPES. cbn [fmap list_fmap fst].
  rewrite !elem_of_cons, elem_of_nil.
  intros [->|[->|[->|[->|[->|[->|[->|[]]]]]]]];
    (split; [discriminate | eexists; reflexivity]).
Qed.

Lemma cell_color_ok (c : cell) : cell_ok c -> cell_color c = Ok (kind_color c).
Proof.
  destruct c as [k|]; [|reflexivity]. cbn [cell_ok cell_color kind_color].
  intros Hk. destruct (COLORS_kinds k Hk) as [Hne [col Hcol]].
  destruct (String.eqb_spec k ""); [contradiction|]. by rewrite Hcol.
Qed.

Lemma draw_row_ok (y x : Z) (r : row) :
  Forall cell_ok r ->
  draw_row y x r =
  Ok (concat (map (fun e : Z * Z * cell =>
                     draw_cell e.1.1 e.1.2 (kind_color e.2))
                (enumerate_row y x r))).
Proof.
  intros Hr. revert x. induction Hr as [|c r Hc _ IH]; intros x;
    [reflexivity|].
  cbn [draw_row enumerate_row map concat]. rewrite cell_color_ok by exact Hc.
  cbn [bind]. rewrite IH. reflexivity.
Qed.

Lemma draw_rows_ok (y : Z) (b : board) :
  cells_ok b ->
  draw_rows y b =
  Ok (concat (map (fun e : Z * Z * cell =>
                     draw_cell e.1.1 e.1.2 (kind_color e.2))
                (enumerate_board y b))).
Proof.
  intros Hb. revert y. induction Hb as [|r b Hr _ IH]; intros y;
    [reflexivity|].
  cbn [draw_rows enumerate_board]. rewrite draw_row_ok by exact Hr.
  cbn [bind]. rewrite IH. cbn [bind].
  by rewrite map_app, concat_app.
Qed.

Lemma enumerate_row_length (y x : Z) (r : row) :
  length (enumerate_row y x r) = length r.
Proof.
  revert x. induction r as [|c r IH]; intros x; [reflexivity|].
  cbn [enumerate_row length]. by rewrite IH.
Qed.

Lemma enumerate_board_length (y : Z) (b : board) (w : nat) :
  Forall (fun r : row => length r = w) b ->
  length (enumerate_board y b) = (length b * w)%nat.
Proof.
  intros Hb. revert y. induction Hb as [|r b Hr _ IH]; intros y;
    [reflexivity|].
  cbn [enumerate_board length]. rewrite length_app, enumerate_row_length, IH.
  lia.
Qed.

Lemma draw_row_raises (y x : Z) (r : row) (e : exn) :
  draw_row y x r = Raise e -> e = KeyError.
Proof.
  revert x. induction r as [|c r IH]; intros x; [discriminate|].
  cbn [draw_row].
  destruct (cell_color c) as [col|e'] eqn:Hc; cbn [bind].
  - destruct (draw_row y (x + 1) r) as [ds|e'] eqn:Hr; cbn [bind];
      [discriminate|].
    intros [= <-]. by eapply IH.
  - intros [= <-]. destruct c as [k|]; [|discriminate].
    cbn [cell_color] in Hc. destruct (String.eqb k ""); [discriminate|].
    clear -Hc. unfold COLORS in Hc. cbn [Py.dict_get] in Hc.
    repeat match type of Hc with
           | context [String.eqb ?a ?b] => destruct (String.eqb a b)
           end; cbn [bind] in Hc; congruence.
Qed.

Lemma draw_row_unknown (y x : Z) (r : row) (k : string) :
  Some k ∈ r -> k <> "" -> k ∉ Py.keys COLORS ->
  draw_row y x r = Raise KeyError.
Proof.
  intros Hin Hne Hk. revert x. induction r as [|c r IH]; intros x;
    [by apply elem_of_nil in Hin|].
  cbn [draw_row]. apply elem_of_cons in Hin as [<-|Hin].
  - cbn [cell_color]. destruct (String.eqb_spec k ""); [contradiction|].
    by rewrite (dict_get_unknown COLORS k Hk).
  - destruct (cell_color c) as [col|e] eqn:Hc; cbn [bind].
    + by rewrite (IH Hin).
    + f_equal. apply (draw_row_raises y x (c :: r)). cbn [draw_row].
      by rewrite Hc.
Qed.

(** X18.  On a board whose cells are empty or hold a kind, [draw_board]
    raises nothing and calls [draw_cell] once for each cell, row by row
    from the top and from left to right within a row, with the colour of
    the kind for an occupied cell and without colour for an empty one; on
    a board of 20 rows of 10 cells these are 200 calls.  A cell that holds
    a string that is not empty and has no colour makes it raise
    [KeyError]. *)
Theorem draw_board_cells (b : board) :
  (cells_ok b ->
   draw_board b =
   Ok (concat (map (fun e : Z * Z * cell =>
                      draw_cell e.1.1 e.1.2 (kind_color e.2))
                 (enumerate_board 0 b)))) /\
  (board_wf b -> length (enumerate_board 0 b) = 200%nat) /\
  (forall k, k ∈ SHAPE_ORDER ->
     exists col, kind_color (Some k) = Some col) /\
  (forall (r : row) (k : string),
     r ∈ b -> Some k ∈ r -> k <> "" -> k ∉ Py.keys COLORS ->
     draw_board b = Raise KeyError).
Proof.
  split; [apply draw_rows_ok|]. split; [|split].
  - intros [Hlen Hrows].
    rewrite (enumerate_board_length 0 b (Z.to_nat GRID_WIDTH) Hrows), Hlen.
    reflexivity.
  - intros k Hk. destruct (COLORS_kinds k Hk) as [_ [col Hcol]].
    exists col. cbn [kind_color]. by rewrite Hcol.
  - intros r k Hr Hin Hne Hk. unfold draw_board. generalize 0.
    induction b as [|r' b IH]; intros y; [by apply elem_of_nil in Hr|].
    cbn [draw_rows]. apply elem_of_cons in Hr as [<-|Hr].
    + by rewrite (draw_row_unknown y 0 r k Hin Hne Hk).
    + destruct (draw_row y 0 r') as [ds|e] eqn:Hrow; cbn [bind].
      * by rewrite (IH Hr).
      * f_equal. by eapply draw_row_raises.
Qed.

Lemma draw_piece_cells_ok (nm : string) (col : Z * Z * Z) (cs : list (Z * Z)) :
  Py.dict_get COLORS nm = Ok col ->
  draw_piece_cells nm cs =
  Ok (concat (map (fun c : Z * Z => draw_cell c.1 c.2 (Some col))
                (filter (fun c : Z * Z => 0 <= c.2) cs))).
Proof.
  intros Hcol. induction cs as [|[x y] cs IH]; [reflexivity|].
  cbn [draw_piece_cells]. rewrite filter_cons. cbn [snd].
  rewrite Z.geb_leb. destruct (Z.leb_spec 0 y) as [Hy|Hy].
  - rewrite decide_True by exact Hy. rewrite Hcol. cbn [bind].
    rewrite IH. reflexivity.
  - rewrite decide_False by lia. exact IH.
Qed.

(** X19.  For a validly placed piece [draw_piece] raises nothing.  It calls
    [draw_cell] with the colour of the kind for those cells of the piece
    that are not above the top row, in their order, and for no other cell;
    and every rectangle it has drawn is the square of a cell of the grid,
    or that square inflated, and lies inside the play surface of 320 by 640
    pixels. *)
Theorem draw_piece_inside (b : board) (p : Tetromino) :
  is_valid_position b p = Ok true ->
  exists cs col ds,
    cells p = Ok cs /\ Py.dict_get COLORS (name p) = Ok col /\
    draw_piece p = Ok ds /\
    ds = concat (map (fun c : Z * Z => draw_cell c.1 c.2 (Some col))
                   (filter (fun c : Z * Z => 0 <= c.2) cs)) /\
    Forall draws_grid_square ds.
Proof.
  intros Hvalid.
  destruct (valid_position_cells b p Hvalid) as (cs & Hcs & Hfree & Hnm).
  destruct (COLORS_kinds _ Hnm) as [_ [col Hcol]].
  exists cs, col. eexists. split; [exact Hcs|]. split; [exact Hcol|].
  split; [|split; [reflexivity|]].
  - unfold draw_piece. rewrite Hcs. cbn [bind].
    by apply draw_piece_cells_ok.
  - apply Forall_concat, Forall_map, Forall_forall. intros [x y] Hin.
    apply list_elem_of_filter in Hin as [Hy Hin]. cbn [fst snd] in *.
    rewrite Forall_forall in Hfree. destruct (Hfree _ Hin) as (Hx & Hy' & _).
    cbn [fst snd] in *.
    assert (Hsq : exists x0 y0,
              0 <= x0 < GRID_WIDTH /\ 0 <= y0 < GRID_HEIGHT /\
              Rect (x * BLOCK_SIZE) (y * BLOCK_SIZE) BLOCK_SIZE BLOCK_SIZE =
                Rect (x0 * BLOCK_SIZE) (y0 * BLOCK_SIZE)
                  BLOCK_SIZE BLOCK_SIZE /\
              0 <= x0 * BLOCK_SIZE /\
              x0 * BLOCK_SIZE + BLOCK_SIZE <= PLAY_WIDTH /\
              0 <= y0 * BLOCK_SIZE /\
              y0 * BLOCK_SIZE + BLOCK_SIZE <= PLAY_HEIGHT).
    { exists x, y. unfold PLAY_WIDTH, PLAY_HEIGHT, BLOCK_SIZE, GRID_WIDTH,
        GRID_HEIGHT in *. repeat split; lia. }
    unfold draw_cell. repeat constructor; exact Hsq.
Qed.

Lemma draw_piece_inside_witness :
  exists cs col ds,
    cells (new_piece "J") = Ok cs /\
    Py.dict_get COLORS (name (new_piece "J")) = Ok col /\
    draw_piece (new_piece "J") = Ok ds /\
    ds = concat (map (fun c : Z * Z => draw_cell c.1 c.2 (Some col))
                   (filter (fun c : Z * Z => 0 <= c.2) cs)) /\
    Forall draws_grid_square ds.
Proof.
  apply (draw_piece_inside create_board (new_piece "J")). reflexivity.
Defined.

(** A T piece half above the top row: only the three cells of its lower
    row are drawn. *)
Example draw_piece_half_hidden :
  draw_piece (mkTetromino "T" 0 (3, -1)) =
  Ok (draw_cell 3 0 (Some (160, 0, 240)) ++
      draw_cell 4 0 (Some (160, 0, 240)) ++
      draw_cell 5 0 (Some (160, 0, 240))).
Proof. reflexivity. Qed.

(** ** One frame of [main]: the events, then [render] *)

Lemma draw_cell_grid_square (x y : Z) (col : option (Z * Z * Z)) :
  0 <= x < GRID_WIDTH -> 0 <= y < GRID_HEIGHT ->
  Forall draws_grid_square (draw_cell x y col).
Proof.
  intros Hx Hy.
  assert (Hsq : exists x0 y0,
            0 <= x0 < GRID_WIDTH /\ 0 <= y0 < GRID_HEIGHT /\
            Rect (x * BLOCK_SIZE) (y * BLOCK_SIZE) BLOCK_SIZE BLOCK_SIZE =
              Rect (x0 * BLOCK_SIZE) (y0 * BLOCK_SIZE)
                BLOCK_SIZE BLOCK_SIZE /\
            0 <= x0 * BLOCK_SIZE /\
            x0 * BLOCK_SIZE + BLOCK_SIZE <= PLAY_WIDTH /\
            0 <= y0 * BLOCK_SIZE /\
            y0 * BLOCK_SIZE + BLOCK_SIZE <= PLAY_HEIGHT).
  { exists x, y. unfold PLAY_WIDTH, PLAY_HEIGHT, BLOCK_SIZE, GRID_WIDTH,
      GRID_HEIGHT in *. repeat split; lia. }
  unfold draw_cell. destruct col; repeat constructor; exact Hsq.
Qed.

Lemma enumerate_row_bounds (y x : Z) (r : row) :
  Forall (fun e : Z * Z * cell =>
            x <= e.1.1 < x + Z.of_nat (length r) /\ e.1.2 = y)
    (enumerate_row y x r).
Proof.
  revert x. induction r as [|c r IH]; intros x; [constructor|].
  cbn [enumerate_row length]. constructor.
  - cbn [fst snd]. lia.
  - eapply Forall_impl; [apply IH|]. cbn beta. intros e [H1 H2]. lia.
Qed.

Lemma enumerate_board_bounds (y : Z) (b : board) (w : nat) :
  Forall (fun r : row => length r = w) b ->
  Forall (fun e : Z * Z * cell =>
            0 <= e.1.1 < Z.of_nat w /\
            y <= e.1.2 < y + Z.of_nat (length b))
    (enumerate_board y b).
Proof.
  intros Hb. revert y. induction Hb as [|r b Hr _ IH]; intros y;
    [constructor|].
  cbn [enumerate_board length]. apply Forall_app. split.
  - eapply Forall_impl; [apply enumerate_row_bounds|]. cbn beta.
    intros e [H1 H2]. lia.
  - eapply Forall_impl; [apply IH|]. cbn beta. intros e [H1 H2]. lia.
Qed.

Lemma draw_board_squares (b : board) :
  board_wf b -> cells_ok b ->
  exists ds, draw_board b = Ok ds /\ Forall draws_grid_square ds.
Proof.
  intros [Hlen Hrows] Hcells. eexists. split; [by apply draw_rows_ok|].
  apply Forall_concat, Forall_map.
  eapply Forall_impl; [exact (enumerate_board_bounds 0 b _ Hrows)|].
  cbn beta. intros e [H1 H2]. rewrite Hlen in H2.
  apply draw_cell_grid_square; unfold GRID_WIDTH, GRID_HEIGHT in *; lia.
Qed.

Lemma draw_piece_has_cells (p : Tetromino) :
  has_cells p -> exists ds, draw_piece p = Ok ds.
Proof.
  intros [cs Hcs]. unfold draw_piece. rewrite Hcs. cbn [bind].
  assert (Hnm : name p ∈ SHAPE_ORDER).
  { unfold cells in Hcs.
    destruct (Py.dict_get SHAPES (name p)) as [rs|e] eqn:Hd; [|discriminate].
    apply dict_get_keys. by eexists. }
  destruct (COLORS_kinds _ Hnm) as [_ [col Hcol]].
  eexists. by apply draw_piece_cells_ok.
Qed.

Lemma draw_preview_cells_ok (nm : string) (col : Z * Z * Z)
    (cs : list (Z * Z)) :
  Py.dict_get COLORS nm = Ok col ->
  draw_preview_cells nm cs =
  Ok (concat (map (fun c : Z * Z => draw_cell c.1 c.2 (Some col)) cs)).
Proof.
  intros Hcol. induction cs as [|[x y] cs IH]; [reflexivity|].
  cbn [draw_preview_cells]. rewrite Hcol. cbn [bind]. rewrite IH.
  reflexivity.
Qed.

Lemma initial_offsets (k : string) :
  k ∈ SHAPE_ORDER ->
  exists rotations offsets,
    Py.dict_get SHAPES k = Ok rotations /\
    Py.getitem rotations 0 = Ok offsets /\
    length offsets = 4%nat /\
    Forall (fun c : Z * Z => 0 <= c.1 < 4 /\ 0 <= c.2 < 4) offsets.
Proof.
  unfold SHAPE_ORDER, Py.keys, SHAPES. cbn [fmap list_fmap fst].
  rewrite !elem_of_cons, elem_of_nil.
  intros [->|[->|[->|[->|[->|[->|[->|[]]]]]]]];
    (do 2 eexists; split; [reflexivity|]; split; [reflexivity|];
     split; [reflexivity|]; repeat constructor; cbn; lia).
Qed.

Lemma draw_preview_ok (k : string) :
  k ∈ SHAPE_ORDER ->
  exists ds,
    draw_preview k = Ok ds /\ length ds = 8%nat /\
    Forall draws_preview_square ds.
Proof.
  intros Hk. destruct (initial_offsets k Hk) as (rs & os & Hrs & Hos & Hlen & Hbox).
  destruct (COLORS_kinds k Hk) as [_ [col Hcol]].
  unfold draw_preview. rewrite Hrs. cbn [bind]. rewrite Hos. cbn [bind].
  rewrite (draw_preview_cells_ok k col os Hcol). eexists.
  split; [reflexivity|]. split.
  - clear Hbox. destruct os as [|a [|b [|c [|d [|]]]]]; try discriminate.
    reflexivity.
  - apply Forall_concat, Forall_map.
    eapply Forall_impl; [exact Hbox|]. cbn beta. intros [x y] [Hx Hy].
    cbn [fst snd] in *.
    assert (Hsq : exists x0 y0,
              0 <= x0 < 4 /\ 0 <= y0 < 4 /\
              Rect (x * BLOCK_SIZE) (y * BLOCK_SIZE) BLOCK_SIZE BLOCK_SIZE =
                Rect (x0 * BLOCK_SIZE) (y0 * BLOCK_SIZE)
                  BLOCK_SIZE BLOCK_SIZE /\
              0 <= x0 * BLOCK_SIZE /\
              x0 * BLOCK_SIZE + BLOCK_SIZE <= BLOCK_SIZE * 4 /\
              0 <= y0 * BLOCK_SIZE /\
              y0 * BLOCK_SIZE + BLOCK_SIZE <= BLOCK_SIZE * 4).
    { exists x, y. unfold BLOCK_SIZE. repeat split; lia. }
    unfold draw_cell. repeat constructor; exact Hsq.
Qed.

Lemma draw_piece_valid (b : board) (p : Tetromino) :
  is_valid_position b p = Ok true ->
  exists ds, draw_piece p = Ok ds /\ Forall draws_grid_square ds.
Proof.
  intros Hvalid.
  destruct (valid_position_cells b p Hvalid) as (cs & Hcs & Hfree & Hnm).
  destruct (COLORS_kinds _ Hnm) as [_ [col Hcol]].
  unfold draw_piece. rewrite Hcs. cbn [bind].
  rewrite (draw_piece_cells_ok _ col cs Hcol). eexists.
  split; [reflexivity|].
  apply Forall_concat, Forall_map, Forall_forall. intros [x y] Hin.
  apply list_elem_of_filter in Hin as [Hy Hin]. cbn [fst snd] in *.
  rewrite Forall_forall in Hfree. destruct (Hfree _ Hin) as (Hx & Hy' & _).
  cbn [fst snd] in *. by apply draw_cell_grid_square.
Qed.

(** X23.  One frame of [main] from a state that satisfies the invariant of
    the game: the events of the frame are handled without an exception,
    and [render] then finds every colour and shape it looks up, also when
    the frame has ended the game.  The preview of the next piece is four
    cells, each drawn as a square and its inflated copy inside the preview
    surface of 4 by 4 blocks; and while the game is not over everything
    drawn on the play surface is the square of a cell of the grid. *)
Theorem render_after_frame {Rng : Type}
    (shuffle : Rng -> list string -> list string * Rng)
    (shuffle_perm : forall (g : Rng) (l : list string), (shuffle g l).1 ≡ₚ l)
    (events : list event) (g : game Rng) :
  game_inv g ->
  exists g' play preview,
    (forall fuel, (21 <= fuel)%nat ->
       process_events shuffle fuel g events = Some (Ok g')) /\
    render (g_board g') (g_current_piece g') (g_next_piece_name g') =
      Ok (play, preview) /\
    length preview = 8%nat /\ Forall draws_preview_square preview /\
    (is_valid_position (g_board g') (g_current_piece g') = Ok true ->
     Forall draws_grid_square play).
Proof.
  intros Hinv.
  destruct (process_events_inv shuffle shuffle_perm events g Hinv)
    as (g' & Hrun & Hrest & _ & Hcase).
  destruct Hrest as (Hwf & Hcells & _ & _ & _ & Hnext & _).
  destruct (draw_board_squares _ Hwf Hcells) as (ds & Hds & Hsq).
  destruct (draw_preview_ok _ Hnext) as (pv & Hpv & Hlen & Hpsq).
  assert (Hhas : has_cells (g_current_piece g')).
  { assert (Hv : exists v,
              is_valid_position (g_board g') (g_current_piece g') = Ok v).
    { destruct Hcase as [[_ Hv]|[_ Hv]]; eauto. }
    destruct Hv as [v Hv]. unfold is_valid_position in Hv.
    destruct (cells (g_current_piece g')) as [cs|e] eqn:Hcs; [|discriminate].
    by exists cs. }
  destruct (draw_piece_has_cells _ Hhas) as (ds' & Hds').
  exists g', (ds ++ ds'), pv. split; [exact Hrun|]. split.
  { unfold render. rewrite Hds. cbn [bind]. rewrite Hds'. cbn [bind].
    rewrite Hpv. reflexivity. }
  split; [exact Hlen|]. split; [exact Hpsq|].
  intros Hvalid. apply Forall_app. split; [exact Hsq|].
  destruct (draw_piece_valid _ _ Hvalid) as (ds'' & Hds'' & Hsq').
  rewrite Hds' in Hds''. injection Hds'' as ->. exact Hsq'.
Qed.

Lemma render_after_frame_witness :
  exists g' play preview,
    (forall fuel, (21 <= fuel)%nat ->
       process_events reverse_shuffle fuel demo_game
         [KEYDOWN K_RIGHT; KEYDOWN K_SPACE] = Some (Ok g')) /\
    render (g_board g') (g_current_piece g') (g_next_piece_name g') =
      Ok (play, preview) /\
    length preview = 8%nat /\ Forall draws_preview_square preview /\
    (is_valid_position (g_board g') (g_current_piece g') = Ok true ->
     Forall draws_grid_square play).
Proof.
  apply (render_after_frame reverse_shuffle reverse_shuffle_perm
           [KEYDOWN K_RIGHT; KEYDOWN K_SPACE] demo_game).
  exact demo_game_inv.
Defined.

(** A kind without shapes as the next piece makes [render] raise
    [KeyError] after the board and the piece have been drawn. *)
Example render_unknown_next :
  render create_board (new_piece "T") "X" = Raise KeyError.
Proof. vm_compute. reflexivity. Qed.

(** ** Row objects, once more *)

Lemma store_lock_cells_others (refs : list nat) (nm : string)
    (cs : list (Z * Z)) (h h' : Store.heap) :
  Store.lock_cells h refs nm cs = Ok h' ->
  forall a : nat, a ∉ refs -> Store.rows h' a = Store.rows h a.
Proof.
  revert h. induction cs as [|[x y] cs IH]; intros h; cbn [Store.lock_cells].
  - by intros [= ->].
  - destruct ((0 <=? y) && (y <? GRID_HEIGHT)); [|apply IH].
    destruct (Py.getitem refs y) as [a0|e] eqn:Ha; cbn [bind];
      [|discriminate].
    destruct (Py.setitem (Store.rows h a0) x (Some nm)) as [r'|e];
      cbn [bind]; [|discriminate].
    intros H a Hnot. rewrite (IH _ H a Hnot). cbn [Store.write Store.rows].
    apply store_update_ne. intros ->. apply Hnot.
    by eapply getitem_elem_of.
Qed.

(** X20.  [lock_piece] makes no row object and writes into no row object
    other than those of the board.  When the rows of the board are
    distinct objects, the board after the call is the one that
    [lock_piece] on values gives, and the call fails when that one
    does. *)
Theorem store_lock_piece_rows (refs : list nat) (p : Tetromino)
    (h : Store.heap) :
  (forall h', Store.lock_piece h refs p = Ok h' ->
     Store.next h' = Store.next h /\
     forall a : nat, a ∉ refs -> Store.rows h' a = Store.rows h a) /\
  (NoDup refs ->
   lock_piece (Store.read h refs) p =
   let* h' := Store.lock_piece h refs p in Ok (Store.read h' refs)).
Proof.
  split.
  - unfold Store.lock_piece. intros h'.
    destruct (cells p) as [cs|e]; cbn [bind]; [|discriminate].
    intros H. split; [by eapply store_lock_cells_next|].
    by eapply store_lock_cells_others.
  - intros Hnd. unfold lock_piece, Store.lock_piece.
    destruct (cells p) as [cs|e]; cbn [bind]; [|reflexivity].
    by apply store_lock_cells.
Qed.

Lemma demo_heap_distinct :
  NoDup demo_heap.1 /\ Store.allocated demo_heap.2 demo_heap.1.
Proof.
  destruct (store_alloc_rows (Z.to_nat GRID_HEIGHT)
              (Store.mkHeap (fun _ => []) 0)) as (_ & H2 & H3 & _).
  by split.
Qed.

(** X21.  [create_board] makes twenty row objects that are all different
    and all new, each a row of ten empty cells: no row of the board is
    shared with another row or with anything that existed before, and
    nothing that existed before is changed. *)
Theorem store_create_board_fresh (h : Store.heap) :
  Store.read (Store.create_board h).2 (Store.create_board h).1 = create_board /\
  NoDup (Store.create_board h).1 /\
  Store.allocated (Store.create_board h).2 (Store.create_board h).1 /\
  Forall (fun a : nat => (Store.next h <= a)%nat) (Store.create_board h).1 /\
  (forall a : nat, (a < Store.next h)%nat ->
     Store.rows (Store.create_board h).2 a = Store.rows h a).
Proof.
  destruct (store_alloc_rows (Z.to_nat GRID_HEIGHT) h)
    as (H1 & H2 & H3 & H4 & _ & H5).
  by repeat split.
Qed.

Lemma store_refill_rows_frame (fuel : nat) (h : Store.heap)
    (remaining : list nat) :
  (forall a : nat, (a < Store.next h)%nat ->
     Store.rows (Store.refill_rows fuel h remaining).2 a = Store.rows h a) /\
  (Store.next h <= Store.next (Store.refill_rows fuel h remaining).2)%nat /\
  exists new : list nat,
    (Store.refill_rows fuel h remaining).1 = new ++ remaining /\
    Forall (fun a : nat => (Store.next h <= a)%nat) new.
Proof.
  revert h remaining. induction fuel as [|fuel IH]; intros h rem;
    cbn [Store.refill_rows].
  - cbn [fst snd]. split; [done|]. split; [lia|]. by exists [].
  - destruct (Z.of_nat (length rem) <? GRID_HEIGHT).
    + unfold Store.alloc.
      set (h1 := Store.mkHeap
                   (Store.update (Store.rows h) (Store.next h) empty_row)
                   (S (Store.next h))).
      destruct (IH h1 (Store.next h :: rem)) as (Hold & Hnext & new & Hnew & Hge).
      cbn [Store.next h1] in Hold, Hnext, Hge.
      split; [|split].
      * intros a Ha. rewrite Hold by lia. cbn [Store.rows h1].
        apply store_update_ne. lia.
      * lia.
      * exists (new ++ [Store.next h]). split.
        -- rewrite Hnew. by rewrite <- app_assoc.
        -- apply Forall_app. split.
           ++ eapply Forall_impl; [exact Hge|]. cbn. intros; lia.
           ++ constructor; [lia | constructor].
    + cbn [fst snd]. split; [done|]. split; [lia|]. by exists [].
Qed.

(** X22.  [clear_lines] changes no row object: the rows it keeps are the
    row objects of the board that are not full, in their order, and above
    them it puts row objects that are new.  When the rows of the board
    are distinct objects, the rows of the board it leaves are distinct
    objects again, and the board and the count are those of [clear_lines]
    on values. *)
Theorem store_clear_lines_rows (h : Store.heap) (refs : list nat) :
  NoDup refs -> Store.allocated h refs ->
  (Store.read (Store.clear_lines h refs).1.2 (Store.clear_lines h refs).1.1,
   (Store.clear_lines h refs).2) = clear_lines (Store.read h refs) /\
  NoDup (Store.clear_lines h refs).1.1 /\
  Store.allocated (Store.clear_lines h refs).1.2 (Store.clear_lines h refs).1.1 /\
  (forall a : nat, (a < Store.next h)%nat ->
     Store.rows (Store.clear_lines h refs).1.2 a = Store.rows h a) /\
  exists new : list nat,
    (Store.clear_lines h refs).1.1 =
      new ++ filter (fun a : nat => None ∈ Store.rows h a) refs /\
    Forall (fun a : nat => (Store.next h <= a)%nat) new.
Proof.
  intros Hnd Hall.
  destruct (store_clear_lines h refs Hnd Hall) as (H1 & H2 & H3).
  split; [exact H1|]. split; [exact H2|]. split; [exact H3|].
  unfold Store.clear_lines. cbn [fst snd].
  destruct (store_refill_rows_frame (Z.to_nat GRID_HEIGHT) h
              (filter (fun a : nat => None ∈ Store.rows h a) refs))
    as (Hold & _ & Hnew).
  by split.
Qed.

Lemma store_clear_lines_rows_witness :
  (Store.read (Store.clear_lines demo_heap.2 demo_heap.1).1.2
     (Store.clear_lines demo_heap.2 demo_heap.1).1.1,
   (Store.clear_lines demo_heap.2 demo_heap.1).2) =
    clear_lines (Store.read demo_heap.2 demo_heap.1) /\
  NoDup (Store.clear_lines demo_heap.2 demo_heap.1).1.1 /\
  Store.allocated (Store.clear_lines demo_heap.2 demo_heap.1).1.2
    (Store.clear_lines demo_heap.2 demo_heap.1).1.1 /\
  (forall a : nat, (a < Store.next demo_heap.2)%nat ->
     Store.rows (Store.clear_lines demo_heap.2 demo_heap.1).1.2 a =
     Store.rows demo_heap.2 a) /\
  exists new : list nat,
    (Store.clear_lines demo_heap.2 demo_heap.1).1.1 =
      new ++ filter (fun a : nat => None ∈ Store.rows demo_heap.2 a)
               demo_heap.1 /\
    Forall (fun a : nat => (Store.next demo_heap.2 <= a)%nat) new.
Proof.
  apply (store_clear_lines_rows demo_heap.2 demo_heap.1);
    apply demo_heap_distinct.
Defined.

(** The board of the demo heap after an O piece has dropped to the floor
    and been locked: only the two lowest rows have changed. *)
Example store_lock_demo :
  (let* h' := Store.lock_piece demo_heap.2 demo_heap.1
                (mkTetromino "O" 0 (3, 18)) in
   Ok (Store.read h' demo_heap.1)) =
  Ok (replicate 18 empty_row ++
      [ [None; None; None; None; Some "O"; Some "O"; None; None; None; None];
        [None; None; None; None; Some "O"; Some "O"; None; None; None; None] ]).
Proof. vm_compute. reflexivity. Qed.
